(** * uems-gateway: the request-correlation core and two REST attachments

    A shallow embedding of [src/Gateway.ts] (namespace [GatewayMk2]), of the
    equipment attachment and of [UserGatewayInterface.ts], with the
    properties the specification states about them.

    Conventions of the embedding.
    - JavaScript numbers that the code handles here are message ids, HTTP
      and broker status codes and millisecond clock readings: they are [Z].
    - A JavaScript [Map] is an association list in insertion order
      ([JsMap]); an object literal is an association list of its own
      properties ([obj]).
    - The gateway object, the world outside it (identifier allocator, HTTP
      responders) and a chronological log of what the core did make up the
      state [Sys]; every method is a function on [Sys] whose result says
      whether it returned or threw.
    - [new Date().getTime()] is an argument [now]. *)

From Stdlib Require Import ZArith List String Bool Lia.
Import ListNotations.

Set Warnings "-register-all".

Local Open Scope string_scope.
Local Open Scope list_scope.
Local Open Scope Z_scope.

(* ------------------------------------------------------------------ *)
(** ** JavaScript values *)

Inductive json : Type :=
| JNull
| JBool (b : bool)
| JNum (n : Z)
| JStr (s : string)
| JArr (items : list json)
| JObj (fields : list (string * json)).

(** An object: own properties in insertion order. *)
Definition obj := list (string * json).

Fixpoint obj_get (key : string) (o : obj) : option json :=
  match o with
  | [] => None
  | (k, v) :: o' => if String.eqb key k then Some v else obj_get key o'
  end.

(** [o[key] = v]: overwrite in place, or add the property at the end. *)
Fixpoint obj_set (key : string) (v : json) (o : obj) : obj :=
  match o with
  | [] => [(key, v)]
  | (k, w) :: o' =>
      if String.eqb key k then (k, v) :: o' else (k, w) :: obj_set key v o'
  end.

(** [j[key]] for a value that is not null; [None] is [undefined]. *)
Definition member (j : json) (key : string) : option json :=
  match j with
  | JObj fields => obj_get key fields
  | _ => None
  end.

(** The value is an object (neither a primitive, nor null, nor an array). *)
Definition is_object (j : json) : bool :=
  match j with
  | JObj _ => true
  | _ => false
  end.

(** [typeof v === 'number']. *)
Definition typeof_number (v : option json) : bool :=
  match v with
  | Some (JNum _) => true
  | _ => false
  end.

(** What a thrown value can be in the code modelled here. *)
Inductive Error : Type :=
| Err (message : string)      (* new Error(message) *)
| SyntaxError                 (* raised by JSON.parse *)
| BrokerError (what : string) (* a rejected amqplib call *)
| Other (what : string).      (* a value a validator rejected with *)

(** The bytes of a broker frame.  [content.toString('utf8')] followed by
    [JSON.parse] is a builtin that either raises [SyntaxError] or yields a
    value; a payload is represented by its text when it does not decode and
    by the decoded value when it does. *)
Inductive Buffer : Type :=
| Malformed (text : string)
| Encodes (value : json).

Definition JSON_parse (b : Buffer) : Error + json :=
  match b with
  | Malformed _ => inl SyntaxError
  | Encodes value => inr value
  end.

(* ------------------------------------------------------------------ *)
(** ** [Map<number, V>] *)

Module JsMap.

Definition t (V : Type) := list (Z * V).

Section Operations.
Context {V : Type}.

Definition empty : t V := [].

Fixpoint get (k : Z) (m : t V) : option V :=
  match m with
  | [] => None
  | (k', v) :: m' => if k =? k' then Some v else get k m'
  end.

(** An existing key keeps its place and takes the new value; a new key
    goes last. *)
Fixpoint set (k : Z) (v : V) (m : t V) : t V :=
  match m with
  | [] => [(k, v)]
  | (k', v') :: m' =>
      if k =? k' then (k, v) :: m' else (k', v') :: set k v m'
  end.

Definition delete (k : Z) (m : t V) : t V :=
  filter (fun e => negb (k =? fst e)) m.

Definition keys (m : t V) : list Z := map fst m.

End Operations.
End JsMap.

(* ------------------------------------------------------------------ *)
(** ** The world outside the gateway object *)

(** An express [Response]: the handle of one HTTP exchange. *)
Record Response : Type := { exchange_no : nat }.

Module ErrorCodes.

(** Modelled from the spec: [constants/ErrorCodes] is absent.  An error is
    the pair {message, code} of the failure envelope.  The named constant
    [SERVICE_TIMEOUT] stays symbolic, its message text being given nowhere;
    its code is the one the status table of the spec assigns to a
    gateway-local timeout. *)
Inductive t : Type :=
| SERVICE_TIMEOUT
| Literal (message code : string).

Definition code (e : t) : string :=
  match e with
  | SERVICE_TIMEOUT => "SERVICE_TIMEOUT"
  | Literal _ c => c
  end.

End ErrorCodes.

(** What is written as the body of an HTTP response: the failure envelope
    {status: "FAIL", error} or any other value. *)
Inductive Body : Type :=
| Failure (error : ErrorCodes.t)
| Payload (value : json).

Record HttpWrite : Type :=
  { responder : Response; http_status : Z; http_body : Body }.

(** The identifiers currently allocated and the HTTP responses written so
    far, oldest first. *)
Record World : Type :=
  { identifiers : list Z; http : list HttpWrite }.

(** [res.status(code).json(body)]; writing to a responder is taken not to
    raise. *)
Definition respond (res : Response) (code : Z) (body : Body) (w : World) : World :=
  {| identifiers := identifiers w;
     http := http w ++ [{| responder := res; http_status := code; http_body := body |}] |}.

(** [constants] of [http2]. *)
Definition HTTP_STATUS_BAD_REQUEST : Z := 400.
Definition HTTP_STATUS_GATEWAY_TIMEOUT : Z := 504.

Module MessageUtilities.

(** Modelled from the spec: [utilities/MessageUtilities] is absent.  [has]
    tells whether a decoded value is an object with the given key (a value
    that is not an object has none); [wrapInFailure] builds the failure
    envelope; [generateMessageIdentifier] and [identifierConsumed] are the
    allocate and release of the Identifier Allocator: allocate returns an
    integer not in the allocated set and adds it, release removes it and is
    idempotent. *)
Definition has (j : json) (key : string) : bool :=
  match member j key with
  | Some _ => true
  | None => false
  end.

Definition wrapInFailure (error : ErrorCodes.t) : Body := Failure error.

Definition fresh (allocated : list Z) : Z :=
  fold_right (fun id next => Z.max (id + 1) next) 0 allocated.

Definition generateMessageIdentifier (w : World) : Z * World :=
  let id := fresh (identifiers w) in
  (id, {| identifiers := id :: identifiers w; http := http w |}).

Definition identifierConsumed (id : Z) (w : World) : World :=
  {| identifiers := remove Z.eq_dec id (identifiers w); http := http w |}.

End MessageUtilities.

(* ------------------------------------------------------------------ *)
(** ** [namespace GatewayMk2] *)

Module GatewayMk2.

Definition RCV_INBOX_QUEUE_NAME : string := "inbox".
Definition GATEWAY_EXCHANGE : string := "gateway".
Definition REQUEST_EXCHANGE : string := "request".

(** [MinimalMessageType] is a decoded reply, a [json].  A completion
    callback is supplied by the caller; it acts on the world outside the
    gateway (it writes the HTTP response, it may release an identifier) and
    has no access to the private request table.  A callback that goes back
    into the gateway through the public [publish] (one that wraps the
    resolver does, for its sub-fetches) is outside this type: what is
    proved of the messages published is stated for runs that invoke no
    callback. *)
Definition RequestCallback : Type :=
  Response -> Z -> json -> Z -> World -> World.

(** [MessageValidator.validate] returns a promise of a boolean: it settles
    to a boolean or rejects. *)
Inductive Settled : Type :=
| Resolved (validated : bool)
| Rejected (err : Error).

Record MessageValidator : Type := { validate : json -> Settled }.

Record PendingRequest : Type :=
  { uid : Z;
    response : Response;
    callback : RequestCallback;
    timestamp : Z;
    additionalValidator : option MessageValidator }.

(** [{ msg_id: number, [key: string]: any }]. *)
Record RequestMessage : Type := { msg_id : Z; properties : obj }.

(** An amqplib channel, by what its calls answer: the boolean of
    [publish], and whether each setup call resolves. *)
Record Channel : Type :=
  { publish_accepted : bool;
    assertExchange : string -> bool;
    assertQueue : string -> bool;
    bindQueue : string -> string -> bool;
    consume : string -> bool }.

(** An amqplib connection, by what its successive [createChannel] calls
    answer ([None]: the call rejects). *)
Record Connection_ : Type := { channels : list (option Channel) }.

Definition createChannel (c : Connection_) : (Error + Channel) * Connection_ :=
  match channels c with
  | [] => (inl (BrokerError "createChannel"), c)
  | None :: rest => (inl (BrokerError "createChannel"), {| channels := rest |})
  | Some ch :: rest => (inr ch, {| channels := rest |})
  end.

(** Modelled from the spec: [resolver/EntityResolver] is absent.  The
    resolver holds the set of ids it has claimed; [intercept] is true iff
    the resolver is awaiting the id; [consume] takes the reply, which leaves
    the intercept set.  What else [consume] does (the callbacks it runs,
    the sub-fetches it publishes) is not represented, and nothing is
    claimed of it. *)
Record EntityResolver : Type := { awaiting : list Z; consumed : list json }.

Definition intercept (r : EntityResolver) (id : Z) : bool :=
  existsb (Z.eqb id) (awaiting r).

Definition resolver_consume (r : EntityResolver) (id : Z) (reply : json) : EntityResolver :=
  {| awaiting := remove Z.eq_dec id (awaiting r);
     consumed := consumed r ++ [reply] |}.

Inductive TimerHandler : Type := TerminateTimedOut.

(** The value of [setInterval(handler, ms)]. *)
Record Timeout : Type := { handler : TimerHandler; ms : Z }.

Definition setInterval (h : TimerHandler) (delay : Z) : Timeout :=
  {| handler := h; ms := delay |}.

Record GatewayMessageHandler : Type :=
  { connection : Connection_;
    sendChannel : option Channel;
    receiveChannel : option Channel;
    outstandingRequests : JsMap.t PendingRequest;
    basicValidator : option MessageValidator;
    terminatorInterval : Timeout;
    _resolver : option EntityResolver }.

Inductive Level : Type := LDebug | LInfo | LWarn | LError.

(** What the core did, in order.  A log line carries its fixed text and the
    numbers interpolated into it. *)
Inductive Event : Type :=
| Log (level : Level) (text : string) (args : list Z)
| Console (method text : string)
| Published (exchange key : string) (data : RequestMessage)
| Fired (request : PendingRequest) (reply : json) (status : Z)
| Handed (reply : json).

Record Sys : Type :=
  { this : GatewayMessageHandler; world : World; trace : list Event }.

Inductive Outcome (A : Type) : Type :=
| Returned (value : A) (s : Sys)
| Thrown (e : Error) (s : Sys).
Arguments Returned {A} value s.
Arguments Thrown {A} e s.

Definition state_of {A : Type} (o : Outcome A) : Sys :=
  match o with
  | Returned _ s => s
  | Thrown _ s => s
  end.

Definition log (ev : Event) (s : Sys) : Sys :=
  {| this := this s; world := world s; trace := trace s ++ [ev] |}.

Definition on_world (f : World -> World) (s : Sys) : Sys :=
  {| this := this s; world := f (world s); trace := trace s |}.

Definition on_this (f : GatewayMessageHandler -> GatewayMessageHandler) (s : Sys) : Sys :=
  {| this := f (this s); world := world s; trace := trace s |}.

Definition with_connection (c : Connection_) (g : GatewayMessageHandler) :=
  {| connection := c;
     sendChannel := sendChannel g;
     receiveChannel := receiveChannel g;
     outstandingRequests := outstandingRequests g;
     basicValidator := basicValidator g;
     terminatorInterval := terminatorInterval g;
     _resolver := _resolver g |}.

Definition with_sendChannel (ch : option Channel) (g : GatewayMessageHandler) :=
  {| connection := connection g;
     sendChannel := ch;
     receiveChannel := receiveChannel g;
     outstandingRequests := outstandingRequests g;
     basicValidator := basicValidator g;
     terminatorInterval := terminatorInterval g;
     _resolver := _resolver g |}.

Definition with_receiveChannel (ch : option Channel) (g : GatewayMessageHandler) :=
  {| connection := connection g;
     sendChannel := sendChannel g;
     receiveChannel := ch;
     outstandingRequests := outstandingRequests g;
     basicValidator := basicValidator g;
     terminatorInterval := terminatorInterval g;
     _resolver := _resolver g |}.

Definition with_outstandingRequests
  (f : JsMap.t PendingRequest -> JsMap.t PendingRequest) (g : GatewayMessageHandler) :=
  {| connection := connection g;
     sendChannel := sendChannel g;
     receiveChannel := receiveChannel g;
     outstandingRequests := f (outstandingRequests g);
     basicValidator := basicValidator g;
     terminatorInterval := terminatorInterval g;
     _resolver := _resolver g |}.

Definition with_resolver (r : option EntityResolver) (g : GatewayMessageHandler) :=
  {| connection := connection g;
     sendChannel := sendChannel g;
     receiveChannel := receiveChannel g;
     outstandingRequests := outstandingRequests g;
     basicValidator := basicValidator g;
     terminatorInterval := terminatorInterval g;
     _resolver := r |}.

(** The request table of a state. *)
Definition table (s : Sys) : JsMap.t PendingRequest := outstandingRequests (this s).

(** [constructor(connection, basicValidator)]: an empty table, and the
    terminator scheduled every 2000 ms. *)
Definition constructor (conn : Connection_) (validator : option MessageValidator)
  (w : World) : Sys :=
  {| this :=
       {| connection := conn;
          sendChannel := None;
          receiveChannel := None;
          outstandingRequests := JsMap.empty;
          basicValidator := validator;
          terminatorInterval := setInterval TerminateTimedOut 2000;
          _resolver := None |};
     world := w;
     trace := [Log LInfo "created Gateway and scheduled terminator" []] |}.

(** One turn of the loop of [terminateTimedOut], for the key [key]. *)
Definition terminate_entry (now key : Z) (s : Sys) : Sys :=
  match JsMap.get key (table s) with
  | Some entry =>
      if now - timestamp entry >? 15000 then
        let s1 := log (Log LDebug "terminating request" [uid entry; timestamp entry]) s in
        let s2 := on_world (respond (response entry) HTTP_STATUS_GATEWAY_TIMEOUT
                              (MessageUtilities.wrapInFailure ErrorCodes.SERVICE_TIMEOUT)) s1 in
        let s3 := on_this (with_outstandingRequests (JsMap.delete key)) s2 in
        on_world (MessageUtilities.identifierConsumed (uid entry)) s3
      else s
  | None => s
  end.

(** [terminateTimedOut]: the loop goes through the keys of the table; a key
    deleted in a turn is the key of that turn, which the iteration of a
    [Map] allows. *)
Definition terminateTimedOut (now : Z) (s : Sys) : Sys :=
  fold_left (fun acc key => terminate_entry now key acc) (JsMap.keys (table s)) s.

(** What the timer runs when it fires at clock reading [now]. *)
Definition fire (t : Timeout) (now : Z) (s : Sys) : Sys :=
  match handler t with
  | TerminateTimedOut => terminateTimedOut now s
  end.

Definition set_resolver (value : EntityResolver) (s : Sys) : Sys :=
  on_this (with_resolver (Some value)) s.

Definition setup_failed (e : Error) (text : string) (s : Sys) : Outcome unit :=
  Thrown e (log (Log LError text []) s).

(** [configure(resolver)]: every step that rejects is logged and rethrown. *)
Definition configure (resolver : EntityResolver) (s : Sys) : Outcome unit :=
  let s := on_this (with_resolver (Some resolver)) s in
  match createChannel (connection (this s)) with
  | (inl e, c) =>
      setup_failed e "[gateway setup]: failed to initialise due to failing to create the channel"
        (on_this (with_connection c) s)
  | (inr send, c) =>
      let s := on_this (with_sendChannel (Some send)) (on_this (with_connection c) s) in
      let s := log (Log LDebug "send channel has been created" []) s in
      if negb (assertExchange send REQUEST_EXCHANGE) then
        setup_failed (BrokerError "assertExchange")
          "[gateway setup]: failed to initialise due to failing to assert the exchange" s
      else
        let s := log (Log LDebug "asserted the exchange" []) s in
        match createChannel (connection (this s)) with
        | (inl e, c) =>
            setup_failed e
              "[gateway setup]: failed to initialise due to failing to create the receiving channel"
              (on_this (with_connection c) s)
        | (inr receive, c) =>
            let s := on_this (with_receiveChannel (Some receive))
                       (on_this (with_connection c) s) in
            let s := log (Log LDebug "created receive channel" []) s in
            if negb (assertExchange receive GATEWAY_EXCHANGE) then
              setup_failed (BrokerError "assertExchange")
                "[gateway setup]: failed to initialise due to failing to assert the gateway exchange" s
            else
              let s := log (Log LDebug "asserted gateway exchange" []) s in
              if negb (assertQueue receive RCV_INBOX_QUEUE_NAME) then
                setup_failed (BrokerError "assertQueue")
                  "[gateway setup]: failed to initialise due to failing to assert the inbox queue" s
              else
                let s := log (Log LDebug "asserted inbox" []) s in
                if negb (bindQueue receive RCV_INBOX_QUEUE_NAME GATEWAY_EXCHANGE) then
                  setup_failed (BrokerError "bindQueue")
                    "[gateway setup]: failed to initialise due to failing to bind the inbox" s
                else
                  let s := log (Log LDebug "created binding" []) s in
                  if negb (consume receive RCV_INBOX_QUEUE_NAME) then
                    setup_failed (BrokerError "consume")
                      "[gateway setup]: failed to initialise due to failing to begin consuming" s
                  else
                    Returned tt
                      (log (Log LInfo "rabbit mq connection configured, consuming messages" []) s)
        end
  end.

(** A delivery of the inbox: amqplib's [Message]. *)
Record Message : Type := { content : Buffer }.

(** [MessageUtilities.has(json, key) && typeof json[key] === 'number'],
    with the number when it holds. *)
Definition numeric (json : json) (key : string) : option Z :=
  if MessageUtilities.has json key && typeof_number (member json key) then
    match member json key with
    | Some (JNum n) => Some n
    | _ => None
    end
  else None.

(** The settlement of [additionalValidator.validate(json)] and the [then]
    and [catch] attached to it.  They run once the promise has settled,
    after the handler has returned; the record they use was taken out of
    the table before, and they touch nothing else of the gateway, so they
    are composed here with the handler that started them. *)
Definition settle (request : PendingRequest) (v : MessageValidator) (json : json)
  (status : Z) (s : Sys) : Sys :=
  match validate v json with
  | Resolved true =>
      on_world (callback request (response request) (timestamp request) json status)
        (log (Fired request json status) s)
  | Resolved false =>
      log (Log LWarn
             "[gateway raw incoming]: message was rejected because it didn't pass the additional validator"
             []) s
  | Rejected _ =>
      log (Log LError
             "[gateway raw incoming]: message was rejected because the validator errored out"
             []) s
  end.

Definition handleRawIncoming (message : option Message) (s : Sys) : Outcome unit :=
  match _resolver (this s) with
  | None => Thrown (Err "Gateway not configured properly, no resolver") s
  | Some resolver =>
      match message with
      | None =>
          Returned tt
            (log (Log LWarn "[gateway raw incoming]: null message received, ignoring it" []) s)
      | Some message =>
          match JSON_parse (content message) with
          | inl e => Thrown e s
          | inr json =>
              match numeric json "msg_id" with
              | None =>
                  Returned tt
                    (log (Log LWarn
                            "[gateway raw incoming]: message was received without an ID. Ignoring"
                            []) s)
              | Some id =>
                  match numeric json "status" with
                  | None =>
                      Returned tt
                        (log (Log LWarn
                                "[gateway raw incoming]: message was received without a status. Ignoring"
                                []) s)
                  | Some status =>
                      let s := log (Log LDebug "incoming message" [id; status]) s in
                      if intercept resolver id then
                        let s := on_world (MessageUtilities.identifierConsumed id) s in
                        let s := on_this (with_resolver (Some (resolver_consume resolver id json))) s in
                        Returned tt (log (Handed json) s)
                      else
                        match JsMap.get id (table s) with
                        | None =>
                            Returned tt
                              (log (Log LWarn
                                      "[gateway raw incoming]: message was received that did not match a pending request. has it already timed out?"
                                      [id]) s)
                        | Some request =>
                            let s := on_this (with_outstandingRequests (JsMap.delete id)) s in
                            match additionalValidator request with
                            | Some v => Returned tt (settle request v json status s)
                            | None =>
                                Returned tt
                                  (on_world
                                     (callback request (response request) (timestamp request)
                                        json status)
                                     (log (Fired request json status) s))
                            end
                        end
                  end
              end
          end
      end
  end.

Definition publish (key : string) (data : RequestMessage) (s : Sys) : Outcome bool :=
  match sendChannel (this s) with
  | None => Thrown (Err "Gateway is not configured, make sure you have called configure") s
  | Some channel =>
      let s := log (Console "log" (String.append "transmitting to " key)) s in
      let s := match obj_get "userID" (properties data) with
               | None => log (Console "trace" "undefined userID") s
               | Some _ => s
               end in
      Returned (publish_accepted channel) (log (Published REQUEST_EXCHANGE key data) s)
  end.

Definition sendRequest (now : Z) (key : string) (message : RequestMessage)
  (response : Response) (callback : RequestCallback)
  (validator : option MessageValidator) (s : Sys) : Outcome bool :=
  let s :=
    on_this
      (with_outstandingRequests
         (JsMap.set (msg_id message)
            {| response := response;
               callback := callback;
               uid := msg_id message;
               timestamp := now;
               additionalValidator := validator |})) s in
  publish key message s.

(** [SendRequestFunction], as the attachments receive it. *)
Definition SendRequestFunction : Type :=
  string -> RequestMessage -> Response -> RequestCallback -> Sys -> Outcome bool.

End GatewayMk2.

(* ------------------------------------------------------------------ *)
(** ** The attachments: REST handlers of one entity each *)

Module Attachments.
Import GatewayMk2.

Record UemsUser : Type := { userID : string }.

(** An express [Request], by the parts the handlers read. *)
Record Request : Type :=
  { params : obj; query : obj; body : obj; uemsUser : UemsUser }.

(** [message[key] = value]; assigning [undefined] leaves a property that
    the encoding of the message omits. *)
Definition assign (key : string) (value : option json) (m : RequestMessage) : RequestMessage :=
  match value with
  | Some v => {| msg_id := msg_id m; properties := obj_set key v (properties m) |}
  | None => m
  end.

Definition missing_parameter_id (res : Response) (s : Sys) : Sys :=
  on_world
    (respond res HTTP_STATUS_BAD_REQUEST
       (MessageUtilities.wrapInFailure
          (ErrorCodes.Literal "missing parameter id" "BAD_REQUEST_MISSING_PARAM"))) s.

(** [MessageUtilities.generateMessageIdentifier()], on the allocator of the
    state. *)
Definition generateMessageIdentifier (s : Sys) : Z * Sys :=
  let (id, w) := MessageUtilities.generateMessageIdentifier (world s) in
  (id, on_world (fun _ => w) s).

(** [await send(...)] as the last statement of an async handler. *)
Definition await (o : Outcome bool) : Outcome unit :=
  match o with
  | Returned _ s => Returned tt s
  | Thrown e s => Thrown e s
  end.

Section Handlers.

(** [GenericHandlerFunctions] and [Resolvers] are absent: the completion
    callbacks they build are taken as given. *)
Variable Transformer : Type.
Variable handleReadSingleResponseFactory : option Transformer -> RequestCallback.
Variable resolveSingleEquipment : option EntityResolver -> string -> Transformer.

Definition EQUIPMENT_READ_KEY : string := "equipment.details.get".
Definition EQUIPMENT_DELETE_KEY : string := "equipment.details.delete".
Definition USER_READ_KEY : string := "user.details.get".
Definition USER_DELETE_KEY : string := "user.details.delete".

(** [EquipmentGatewayInterface.getEquipmentHandler(send)]; [resolver] is
    the field [this.resolver] of the attachment. *)
Definition getEquipmentHandler (resolver : option EntityResolver)
  (send : SendRequestFunction) (req : Request) (res : Response) (s : Sys) : Outcome unit :=
  let (id, s) := generateMessageIdentifier s in
  let outgoingMessage :=
    {| msg_id := id;
       properties := [("msg_intention", JStr "READ");
                      ("status", JNum 0);
                      ("userID", JStr (userID (uemsUser req)))] |} in
  if negb (MessageUtilities.has (JObj (params req)) "id") then
    Returned tt (missing_parameter_id res s)
  else
    let outgoingMessage := assign "id" (obj_get "id" (params req)) outgoingMessage in
    await (send EQUIPMENT_READ_KEY outgoingMessage res
             (handleReadSingleResponseFactory
                (Some (resolveSingleEquipment resolver (userID (uemsUser req))))) s).

(** [EquipmentGatewayInterface.deleteEquipmentHandler(send)]. *)
Definition deleteEquipmentHandler (send : SendRequestFunction)
  (req : Request) (res : Response) (s : Sys) : Outcome unit :=
  if negb (MessageUtilities.has (JObj (params req)) "id") then
    Returned tt (missing_parameter_id res s)
  else
    let (id, s) := generateMessageIdentifier s in
    let outgoingMessage :=
      assign "id" (obj_get "id" (params req))
        {| msg_id := id;
           properties := [("msg_intention", JStr "DELETE");
                          ("status", JNum 0);
                          ("userID", JStr (userID (uemsUser req)))] |} in
    await (send EQUIPMENT_DELETE_KEY outgoingMessage res
             (handleReadSingleResponseFactory None) s).

(** [UserGatewayInterface.getUserHandler(send)]. *)
Definition getUserHandler (send : SendRequestFunction)
  (req : Request) (res : Response) (s : Sys) : Outcome unit :=
  if negb (MessageUtilities.has (JObj (params req)) "id") then
    Returned tt (missing_parameter_id res s)
  else
    let (id, s) := generateMessageIdentifier s in
    let outgoingMessage :=
      {| msg_id := id;
         properties := [("msg_intention", JStr "READ");
                        ("status", JNum 0);
                        ("userID", JStr (userID (uemsUser req)))] |} in
    await (send USER_READ_KEY outgoingMessage res
             (handleReadSingleResponseFactory None) s).

(** [UserGatewayInterface.deleteUserHandler(send)]. *)
Definition deleteUserHandler (send : SendRequestFunction)
  (req : Request) (res : Response) (s : Sys) : Outcome unit :=
  if negb (MessageUtilities.has (JObj (params req)) "id") then
    Returned tt (missing_parameter_id res s)
  else
    let (id, s) := generateMessageIdentifier s in
    let outgoingMessage :=
      assign "id" (obj_get "id" (params req))
        {| msg_id := id;
           properties := [("msg_intention", JStr "DELETE");
                          ("status", JNum 0);
                          ("userID", JStr (userID (uemsUser req)))] |} in
    await (send USER_DELETE_KEY outgoingMessage res
             (handleReadSingleResponseFactory None) s).

End Handlers.

(** The messages the core published, oldest first. *)
Fixpoint published (tr : list Event) : list (string * RequestMessage) :=
  match tr with
  | [] => []
  | Published _ key data :: tr' => (key, data) :: published tr'
  | _ :: tr' => published tr'
  end.

End Attachments.

(* ------------------------------------------------------------------ *)
(** ** Runs of the gateway *)

Module Run.
Import GatewayMk2.

(** One turn of the event loop: the gateway is configured, the inbox
    delivers a frame, the interval of the terminator fires, or an attachment
    dispatches a request. *)
Inductive Input : Type :=
| Configure (resolver : EntityResolver)
| Frame (message : option Message)
| Tick (now : Z)
| Send (now : Z) (key : string) (message : RequestMessage) (response : Response)
       (callback : RequestCallback) (validator : option MessageValidator).

Definition step (i : Input) (s : Sys) : Sys :=
  match i with
  | Configure resolver => state_of (configure resolver s)
  | Frame message => state_of (handleRawIncoming message s)
  | Tick now => fire (terminatorInterval (this s)) now s
  | Send now key message response callback validator =>
      state_of (sendRequest now key message response callback validator s)
  end.

Definition run (inputs : list Input) (s : Sys) : Sys :=
  fold_left (fun acc i => step i acc) inputs s.

(** The completion callback was invoked on a reply carrying the id [id]. *)
Definition fired_for (id : Z) (ev : Event) : bool :=
  match ev with
  | Fired _ reply _ =>
      match numeric reply "msg_id" with
      | Some n => n =? id
      | None => false
      end
  | _ => false
  end.

(** How many times a callback was invoked for the id [id]. *)
Definition fires (id : Z) (tr : list Event) : nat :=
  List.length (filter (fired_for id) tr).

(** The input dispatches a new request under the id [id]. *)
Definition sends (id : Z) (i : Input) : bool :=
  match i with
  | Send _ _ message _ _ _ => msg_id message =? id
  | _ => false
  end.

(** The record is older than the deadline at clock reading [now]. *)
Definition expired (now : Z) (r : PendingRequest) : bool :=
  now - timestamp r >? 15000.

(** The response the terminator writes for a record. *)
Definition gateway_timeout (r : PendingRequest) : HttpWrite :=
  {| responder := response r;
     http_status := 504;
     http_body := Failure ErrorCodes.SERVICE_TIMEOUT |}.

(** A reply frame [{msg_id, status, ...rest}]. *)
Definition reply (id status : Z) (rest : obj) : json :=
  JObj (("msg_id", JNum id) :: ("status", JNum status) :: rest).

Definition frame (j : json) : option Message := Some {| content := Encodes j |}.

(** The record of [id], counted: one while it is pending, none after. *)
Definition pending (id : Z) (s : Sys) : nat :=
  match JsMap.get id (table s) with
  | Some _ => 1%nat
  | None => 0%nat
  end.

(** The operation [sweep(now, deadline_ms)] of the Request Table, in the
    words of the specification: it returns, and removes, all the records
    with [now - timestamp > deadline_ms]. *)
Definition RequestTable_sweep (now deadline_ms : Z) (m : JsMap.t PendingRequest)
  : list PendingRequest * JsMap.t PendingRequest :=
  (filter (fun r => now - timestamp r >? deadline_ms) (map snd m),
   filter (fun e => negb (now - timestamp (snd e) >? deadline_ms)) m).

(** The identifiers left once those of the records [gone] are released. *)
Definition release_all (gone : list PendingRequest) (ids : list Z) : list Z :=
  fold_left (fun acc r => remove Z.eq_dec (uid r) acc) gone ids.

(** The loop of [terminateTimedOut] over the keys [ks]. *)
Definition sweep (now : Z) (ks : list Z) (s : Sys) : Sys :=
  fold_left (fun acc key => terminate_entry now key acc) ks s.

End Run.

(* ------------------------------------------------------------------ *)
(** ** Concrete gateways, requests and callbacks *)

Module Examples.
Import GatewayMk2 Attachments Run.

Definition res1 : Response := {| exchange_no := 1 |}.
Definition res2 : Response := {| exchange_no := 2 |}.

(** A completion callback that answers 200 with the reply and does nothing
    else. *)
Definition answer : RequestCallback :=
  fun res _ reply _ w => respond res 200 (Payload reply) w.

(** A completion callback that releases the identifier of the reply and
    then answers. *)
Definition release_and_answer : RequestCallback :=
  fun res _ reply _ w =>
    match numeric reply "msg_id" with
    | Some id => respond res 200 (Payload reply) (MessageUtilities.identifierConsumed id w)
    | None => respond res 200 (Payload reply) w
    end.

Definition accepting : MessageValidator := {| validate := fun _ => Resolved true |}.
Definition rejecting : MessageValidator := {| validate := fun _ => Resolved false |}.
Definition failing : MessageValidator :=
  {| validate := fun _ => Rejected (Other "schema could not be compiled") |}.

Definition channel0 : Channel :=
  {| publish_accepted := true;
     assertExchange := fun _ => true;
     assertQueue := fun _ => true;
     bindQueue := fun _ _ => true;
     consume := fun _ => true |}.

Definition connection0 : Connection_ := {| channels := [Some channel0; Some channel0] |}.

Definition resolver0 : EntityResolver := {| awaiting := [9]; consumed := [] |}.

(** A gateway just constructed, with the ids 7 and 8 allocated. *)
Definition created : Sys :=
  constructor connection0 None {| identifiers := [7; 8]; http := [] |}.

(** The same gateway once [configure] has returned. *)
Definition configured : Sys := state_of (configure resolver0 created).

Definition read_message (id : Z) : RequestMessage :=
  {| msg_id := id;
     properties := [("msg_intention", JStr "READ"); ("status", JNum 0);
                    ("userID", JStr "u1")] |}.

Definition record7 : PendingRequest :=
  {| uid := 7; response := res1; callback := answer; timestamp := 1000;
     additionalValidator := None |}.

Definition record8 : PendingRequest :=
  {| uid := 8; response := res2; callback := answer; timestamp := 10000;
     additionalValidator := None |}.

(** Request 7 dispatched at clock reading 1000. *)
Definition pending7 : Sys :=
  state_of (sendRequest 1000 "equipment.details.get" (read_message 7) res1 answer None
              configured).

(** ... and request 8 at clock reading 10000. *)
Definition pending78 : Sys :=
  state_of (sendRequest 10000 "equipment.details.get" (read_message 8) res2 answer None
              pending7).

(** Request 7 dispatched with a validator that rejects every reply. *)
Definition guarded7 : Sys :=
  state_of (sendRequest 1000 "equipment.details.get" (read_message 7) res1 answer
              (Some rejecting) configured).

(** Request 7 dispatched with a callback that releases its identifier. *)
Definition releasing7 : Sys :=
  state_of (sendRequest 1000 "equipment.details.get" (read_message 7) res1
              release_and_answer None configured).

(** The gateway once the reply to request 7 has been handled. *)
Definition completed7 : Sys :=
  state_of (handleRawIncoming (frame (reply 7 0 [])) pending7).

(** A second record under the id 7, for another responder. *)
Definition second7 : PendingRequest :=
  {| uid := 7; response := res2; callback := release_and_answer; timestamp := 2000;
     additionalValidator := None |}.

(** [GET /user/abc] and [GET /equipment/abc], from the user [u1]. *)
Definition get_abc : Request :=
  {| params := [("id", JStr "abc")]; query := []; body := [];
     uemsUser := {| userID := "u1" |} |}.

(** The [send] an attachment is given: [sendRequest] of the gateway, at
    clock reading 1000 and with no validator. *)
Definition send0 : SendRequestFunction :=
  fun key message res cb => sendRequest 1000 key message res cb None.

End Examples.

(* ------------------------------------------------------------------ *)
(** ** The attachments in full: every handler and the route tables *)

Module Interfaces.
Import GatewayMk2 Attachments.

(** The condition of [if (value)] on a property read: [undefined], [null],
    [false], [0] and the empty string are falsy. *)
Definition truthy (value : option json) : bool :=
  match value with
  | None => false
  | Some JNull => false
  | Some (JBool b) => b
  | Some (JNum n) => negb (n =? 0)
  | Some (JStr s) => negb (String.eqb s "")
  | Some (JArr _) => true
  | Some (JObj _) => true
  end.

(** [(x) => typeof (x) === 'string'] and [(x) => typeof (x) === 'number']. *)
Definition is_string (x : json) : bool :=
  match x with
  | JStr _ => true
  | _ => false
  end.

Definition is_number (x : json) : bool :=
  match x with
  | JNum _ => true
  | _ => false
  end.

(** [{ primitive: 'string' | 'number' | 'boolean' }]. *)
Inductive Primitive : Type := PString | PNumber | PBoolean.

(** An object literal [{ msg_id: id, key: value, ... }]; a property whose
    value is [undefined] is one that the encoding of the message omits. *)
Definition object_literal (id : Z) (entries : list (string * option json)) : RequestMessage :=
  fold_left (fun m entry => assign (fst entry) (snd entry) m) entries
    {| msg_id := id; properties := [] |}.

(** [keys.forEach((key) => { if (MessageUtilities.has(parameters, key))
    outgoing[key] = parameters[key]; })]. *)
Definition copy_present (keys : list string) (parameters : obj) (outgoing : RequestMessage)
  : RequestMessage :=
  fold_left
    (fun m key =>
       if MessageUtilities.has (JObj parameters) key
       then assign key (obj_get key parameters) m
       else m)
    keys outgoing.

(** [for (const key of copy) { if (req.body[key]) outgoing[key] =
    req.body[key]; }]. *)
Definition copy_truthy (keys : list string) (source : obj) (outgoing : RequestMessage)
  : RequestMessage :=
  fold_left
    (fun m key =>
       if truthy (obj_get key source)
       then assign key (obj_get key source) m
       else m)
    keys outgoing.

(** ['get' | 'delete' | 'post' | 'patch']. *)
Inductive Action : Type := GET | DELETE | POST | PATCH.

(** An express [RequestHandler], as the attachments write them: an async
    function of the request and the response. *)
Definition RequestHandler : Type := Request -> Response -> Sys -> Outcome unit.

(** [GatewayInterfaceActionType]. *)
Module ActionType.
Record t : Type :=
  { action : Action;
    path : string;
    handle : RequestHandler;
    additionalValidator : option MessageValidator;
    secure : option bool }.
End ActionType.

(** The routing key and the intention that go with an HTTP method in the
    REST shape of an entity. *)
Definition verb (a : Action) : string :=
  match a with
  | GET => "get"
  | DELETE => "delete"
  | POST => "create"
  | PATCH => "update"
  end.

Definition intention (a : Action) : string :=
  match a with
  | GET => "READ"
  | DELETE => "DELETE"
  | POST => "CREATE"
  | PATCH => "UPDATE"
  end.

Definition EQUIPMENT_CREATE_KEY : string := "equipment.details.create".
Definition EQUIPMENT_UPDATE_KEY : string := "equipment.details.update".
Definition USER_CREATE_KEY : string := "user.details.create".
Definition USER_UPDATE_KEY : string := "user.details.update".

Section Handlers.

(** [GenericHandlerFunctions], [Resolvers], the response validators of
    [@uems/uemscommlib] and the two verifiers of [MessageUtilities] are
    absent and taken as given.  A verifier receives the request and the
    response; it answers whether the request passed, it may write to the
    response, and [coerceAndVerifyQuery] may rewrite the query of the
    request, which the handler reads afterwards. *)
Variable Transformer : Type.
Variable handleDefaultResponseFactory : option Transformer -> RequestCallback.
Variable handleReadSingleResponseFactory : option Transformer -> RequestCallback.
Variable resolveEquipments : option EntityResolver -> string -> Transformer.
Variable resolveSingleEquipment : option EntityResolver -> string -> Transformer.
Variable EquipmentResponseValidator : MessageValidator.
Variable UserResponseValidator : MessageValidator.
Variable verifyBody :
  Request -> Response -> list string -> list (string * (json -> bool)) ->
  World -> bool * World.
Variable coerceAndVerifyQuery :
  Request -> Response -> list string -> list (string * Primitive) ->
  World -> bool * Request * World.

(** [EquipmentGatewayInterface.queryEquipmentsHandler(send)]. *)
Definition queryEquipmentsHandler (resolver : option EntityResolver)
  (send : SendRequestFunction) : RequestHandler :=
  fun req res s =>
    let (id, s) := generateMessageIdentifier s in
    let outgoing :=
      {| msg_id := id;
         properties := [("msg_intention", JStr "READ");
                        ("status", JNum 0);
                        ("userID", JStr (userID (uemsUser req)))] |} in
    let '(validate, req, w) :=
      coerceAndVerifyQuery req res []
        [("id", PString); ("assetID", PString); ("name", PString);
         ("manufacturer", PString); ("model", PString); ("miscIdentifier", PString);
         ("amount", PNumber); ("locationID", PString); ("locationSpecifier", PString);
         ("managerID", PString); ("date", PNumber); ("category", PString)]
        (world s) in
    let s := on_world (fun _ => w) s in
    if negb validate then Returned tt s
    else
      let parameters := query req in
      let validProperties :=
        ["id"; "assetID"; "name"; "manufacturer"; "model"; "miscIdentifier"; "amount";
         "locationID"; "locationSpecifier"; "managerID"; "date"; "category"] in
      let outgoing := copy_present validProperties parameters outgoing in
      await (send EQUIPMENT_READ_KEY outgoing res
               (handleDefaultResponseFactory
                  (Some (resolveEquipments resolver (userID (uemsUser req))))) s).

(** [EquipmentGatewayInterface.createEquipmentHandler(send)]. *)
Definition createEquipmentHandler (send : SendRequestFunction) : RequestHandler :=
  fun req res s =>
    let (validate, w) :=
      verifyBody req res
        ["name"; "manufacturer"; "model"; "amount"; "locationID"; "category"]
        [("name", is_string); ("manufacturer", is_string); ("model", is_string);
         ("amount", is_number); ("locationID", is_string); ("category", is_string);
         ("assetID", is_string); ("miscIdentifier", is_string);
         ("locationSpecifier", is_string)]
        (world s) in
    let s := on_world (fun _ => w) s in
    if negb validate then Returned tt s
    else
      let copy := ["assetID"; "miscIdentifier"; "locationSpecifier"] in
      let (id, s) := generateMessageIdentifier s in
      let outgoingMessage :=
        object_literal id
          [("msg_intention", Some (JStr "CREATE"));
           ("status", Some (JNum 0));
           ("userID", Some (JStr (userID (uemsUser req))));
           ("name", obj_get "name" (body req));
           ("manufacturer", obj_get "manufacturer" (body req));
           ("model", obj_get "model" (body req));
           ("amount", obj_get "amount" (body req));
           ("locationID", obj_get "locationID" (body req));
           ("category", obj_get "category" (body req))] in
      let outgoingMessage := copy_truthy copy (body req) outgoingMessage in
      await (send EQUIPMENT_CREATE_KEY outgoingMessage res
               (handleDefaultResponseFactory None) s).

(** [EquipmentGatewayInterface.updateEquipmentHandler(send)]. *)
Definition updateEquipmentHandler (send : SendRequestFunction) : RequestHandler :=
  fun req res s =>
    if negb (MessageUtilities.has (JObj (params req)) "id") then
      Returned tt (missing_parameter_id res s)
    else
      let (id, s) := generateMessageIdentifier s in
      let outgoing :=
        object_literal id
          [("msg_intention", Some (JStr "UPDATE"));
           ("status", Some (JNum 0));
           ("userID", Some (JStr (userID (uemsUser req))));
           ("id", obj_get "id" (params req))] in
      let (validate, w) :=
        verifyBody req res []
          [("assetID", is_string); ("name", is_string); ("manufacturer", is_string);
           ("model", is_string); ("miscIdentifier", is_string); ("amount", is_number);
           ("locationID", is_string); ("locationSpecifier", is_string);
           ("managerID", is_string); ("category", is_string)]
          (world s) in
      let s := on_world (fun _ => w) s in
      if negb validate then Returned tt s
      else
        let copy :=
          ["assetID"; "name"; "manufacturer"; "model"; "miscIdentifier"; "amount";
           "locationID"; "locationSpecifier"; "managerID"; "category"] in
        let outgoing := copy_truthy copy (body req) outgoing in
        await (send EQUIPMENT_UPDATE_KEY outgoing res
                 (handleDefaultResponseFactory None) s).

(** [EquipmentGatewayInterface.generateInterfaces(send, resolver)]; the
    handlers read the field [this.resolver] that it sets. *)
Definition EquipmentGatewayInterface_generateInterfaces
  (send : SendRequestFunction) (resolver : EntityResolver) : list ActionType.t :=
  let this_resolver := Some resolver in
  let validator := EquipmentResponseValidator in
  [ {| ActionType.action := GET;
       ActionType.path := "/equipment";
       ActionType.handle := queryEquipmentsHandler this_resolver send;
       ActionType.additionalValidator := Some validator;
       ActionType.secure := None |};
    {| ActionType.action := POST;
       ActionType.path := "/equipment";
       ActionType.handle := createEquipmentHandler send;
       ActionType.additionalValidator := Some validator;
       ActionType.secure := None |};
    {| ActionType.action := DELETE;
       ActionType.path := "/equipment/:id";
       ActionType.handle :=
         deleteEquipmentHandler Transformer handleReadSingleResponseFactory send;
       ActionType.additionalValidator := Some validator;
       ActionType.secure := None |};
    {| ActionType.action := GET;
       ActionType.path := "/equipment/:id";
       ActionType.handle :=
         getEquipmentHandler Transformer handleReadSingleResponseFactory
           resolveSingleEquipment this_resolver send;
       ActionType.additionalValidator := Some validator;
       ActionType.secure := None |};
    {| ActionType.action := PATCH;
       ActionType.path := "/equipment/:id";
       ActionType.handle := updateEquipmentHandler send;
       ActionType.additionalValidator := Some validator;
       ActionType.secure := None |} ].

(** [UserGatewayInterface.queryUsersHandler(send)]. *)
Definition queryUsersHandler (send : SendRequestFunction) : RequestHandler :=
  fun req res s =>
    let (id, s) := generateMessageIdentifier s in
    let outgoing :=
      {| msg_id := id;
         properties := [("msg_intention", JStr "READ");
                        ("status", JNum 0);
                        ("userID", JStr (userID (uemsUser req)))] |} in
    let '(validate, req, w) :=
      coerceAndVerifyQuery req res []
        [("id", PString); ("name", PString); ("username", PString);
         ("email", PString); ("includeHash", PBoolean); ("includeEmail", PBoolean)]
        (world s) in
    let s := on_world (fun _ => w) s in
    if negb validate then Returned tt s
    else
      let parameters := query req in
      let validProperties :=
        ["id"; "name"; "username"; "email"; "includeEmail"; "includeHash"] in
      let outgoing := copy_present validProperties parameters outgoing in
      await (send USER_READ_KEY outgoing res (handleDefaultResponseFactory None) s).

(** [UserGatewayInterface.createUserHandler(send)]. *)
Definition createUserHandler (send : SendRequestFunction) : RequestHandler :=
  fun req res s =>
    let (validate, w) :=
      verifyBody req res
        ["name"; "username"; "email"; "hash"]
        [("name", is_string); ("username", is_string); ("email", is_string);
         ("hash", is_string); ("profile", is_string)]
        (world s) in
    let s := on_world (fun _ => w) s in
    if negb validate then Returned tt s
    else
      let (id, s) := generateMessageIdentifier s in
      let outgoingMessage :=
        object_literal id
          [("msg_intention", Some (JStr "CREATE"));
           ("id", obj_get "username" (body req));
           ("status", Some (JNum 0));
           ("userID", Some (JStr (userID (uemsUser req))));
           ("name", obj_get "name" (body req));
           ("username", obj_get "username" (body req));
           ("email", obj_get "email" (body req));
           ("hash", obj_get "hash" (body req))] in
      let outgoingMessage :=
        if truthy (obj_get "profile" (body req))
        then assign "profile" (obj_get "profile" (body req)) outgoingMessage
        else outgoingMessage in
      await (send USER_CREATE_KEY outgoingMessage res
               (handleDefaultResponseFactory None) s).

(** [UserGatewayInterface.updateUserHandler(send)]. *)
Definition updateUserHandler (send : SendRequestFunction) : RequestHandler :=
  fun req res s =>
    if negb (MessageUtilities.has (JObj (params req)) "id") then
      Returned tt (missing_parameter_id res s)
    else
      let (validate, w) :=
        verifyBody req res []
          [("name", is_string); ("username", is_string); ("email", is_string);
           ("profile", is_string); ("hash", is_string)]
          (world s) in
      let s := on_world (fun _ => w) s in
      if negb validate then Returned tt s
      else
        let (id, s) := generateMessageIdentifier s in
        let outgoing :=
          object_literal id
            [("msg_intention", Some (JStr "UPDATE"));
             ("status", Some (JNum 0));
             ("userID", Some (JStr (userID (uemsUser req))));
             ("id", obj_get "id" (params req))] in
        let parameters := body req in
        let validProperties := ["name"; "username"; "email"; "hash"; "profile"] in
        let outgoing := copy_present validProperties parameters outgoing in
        await (send USER_UPDATE_KEY outgoing res (handleDefaultResponseFactory None) s).

(** [UserGatewayInterface.generateInterfaces(send)]. *)
Definition UserGatewayInterface_generateInterfaces (send : SendRequestFunction)
  : list ActionType.t :=
  let validator := UserResponseValidator in
  [ {| ActionType.action := GET;
       ActionType.path := "/user";
       ActionType.handle := queryUsersHandler send;
       ActionType.additionalValidator := Some validator;
       ActionType.secure := None |};
    {| ActionType.action := POST;
       ActionType.path := "/user";
       ActionType.handle := createUserHandler send;
       ActionType.additionalValidator := Some validator;
       ActionType.secure := None |};
    {| ActionType.action := DELETE;
       ActionType.path := "/user/:id";
       ActionType.handle :=
         deleteUserHandler Transformer handleReadSingleResponseFactory send;
       ActionType.additionalValidator := Some validator;
       ActionType.secure := None |};
    {| ActionType.action := GET;
       ActionType.path := "/user/:id";
       ActionType.handle :=
         getUserHandler Transformer handleReadSingleResponseFactory send;
       ActionType.additionalValidator := Some validator;
       ActionType.secure := None |};
    {| ActionType.action := PATCH;
       ActionType.path := "/user/:id";
       ActionType.handle := updateUserHandler send;
       ActionType.additionalValidator := Some validator;
       ActionType.secure := None |} ].

End Handlers.

(** The [send] handed to an attachment: [sendRequest] of the gateway, the
    clock reading [now] at the time of the call and the validator of the
    route being bound to it. *)
Definition bind_send (now : Z) (validator : option MessageValidator) : SendRequestFunction :=
  fun key message res cb => sendRequest now key message res cb validator.

End Interfaces.

(* ------------------------------------------------------------------ *)
(** ** What a run dispatches, and further concrete requests *)

Module Observations.
Import GatewayMk2 Attachments Run Examples Interfaces.

(** The pending record that a dispatch puts into the table, with its key. *)
Definition dispatched_record (i : Input) : option (Z * PendingRequest) :=
  match i with
  | Send now _ message res cb validator =>
      Some (msg_id message,
            {| uid := msg_id message; response := res; callback := cb;
               timestamp := now; additionalValidator := validator |})
  | _ => None
  end.

(** The routing keys and messages that the dispatches of a run hand to
    [publish], in order. *)
Fixpoint dispatched (inputs : list Input) : list (string * RequestMessage) :=
  match inputs with
  | [] => []
  | Send _ key message _ _ _ :: rest => (key, message) :: dispatched rest
  | _ :: rest => dispatched rest
  end.

(** An event that is a line of the log or of the console. *)
Definition is_line (ev : Event) : bool :=
  match ev with
  | Log _ _ _ => true
  | Console _ _ => true
  | _ => false
  end.

(** An invocation of a callback that is due to the table of [s]: the
    record invoked was pending there under the id the reply carries, and
    the status passed on is the one of the reply. *)
Definition fired_from (s : Sys) (ev : Event) : Prop :=
  match ev with
  | Fired r reply status =>
      exists k, JsMap.get k (table s) = Some r /\
                numeric reply "msg_id" = Some k /\
                numeric reply "status" = Some status
  | _ => True
  end.

(** The line the terminator logs for a record. *)
Definition terminating (r : PendingRequest) : Event :=
  Log LDebug "terminating request" [uid r; timestamp r].

(** The response of a handler to a request without the id of the path. *)
Definition bad_request_missing_id (res : Response) : HttpWrite :=
  {| responder := res;
     http_status := 400;
     http_body := Failure (ErrorCodes.Literal "missing parameter id"
                             "BAD_REQUEST_MISSING_PARAM") |}.

(** A channel whose [publish] answers false. *)
Definition refusing_channel : Channel :=
  {| publish_accepted := false;
     assertExchange := fun _ => true;
     assertQueue := fun _ => true;
     bindQueue := fun _ _ => true;
     consume := fun _ => true |}.

(** Verifiers that pass every request and leave it as it is, and verifiers
    that answer 400 and fail. *)
Definition verify_pass :
  Request -> Response -> list string -> list (string * (json -> bool)) ->
  World -> bool * World :=
  fun _ _ _ _ w => (true, w).


Definition coerce_pass :
  Request -> Response -> list string -> list (string * Primitive) ->
  World -> bool * Request * World :=
  fun req _ _ _ w => (true, req, w).






(** A request to a route by id that carries no id. *)
Definition no_id : Request :=
  {| params := []; query := []; body := []; uemsUser := {| userID := "u1" |} |}.

End Observations.

(* ------------------------------------------------------------------ *)
(** ** The body of [sendRequest], statement by statement *)

Module SendRequestBody.
Import GatewayMk2.

(** The two statements of the body, [this.outstandingRequests.set(id,
    record);] and [return this.publish(key, data);]. *)
Inductive Statement : Type :=
| SetOutstanding (id : Z) (record : PendingRequest)
| ReturnPublish (key : string) (data : RequestMessage).

(** The body of [sendRequest(key, message, response, callback, validator)]
    in the order of the source, the clock being read as [now] for the
    record. *)
Definition statements (now : Z) (key : string) (message : RequestMessage)
  (response : Response) (callback : RequestCallback)
  (validator : option MessageValidator) : list Statement :=
  [ SetOutstanding (msg_id message)
      {| response := response;
         callback := callback;
         uid := msg_id message;
         timestamp := now;
         additionalValidator := validator |};
    ReturnPublish key message ].

(** How a statement completes: normally, by returning a value from the
    function, or by throwing. *)
Inductive Completion : Type :=
| Normal (s : Sys)
| Return (value : bool) (s : Sys)
| Throw (e : Error) (s : Sys).

Definition execute (st : Statement) (s : Sys) : Completion :=
  match st with
  | SetOutstanding id record =>
      Normal (on_this (with_outstandingRequests (JsMap.set id record)) s)
  | ReturnPublish key data =>
      match publish key data s with
      | Returned value s' => Return value s'
      | Thrown e s' => Throw e s'
      end
  end.

(** The completion of a body: a return or a throw ends it. *)
Fixpoint complete (body : list Statement) (s : Sys) : Completion :=
  match body with
  | [] => Normal s
  | st :: rest =>
      match execute st s with
      | Normal s' => complete rest s'
      | Return value s' => Return value s'
      | Throw e s' => Throw e s'
      end
  end.

(** The states the gateway is in after each statement that is executed, in
    order. *)
Fixpoint states (body : list Statement) (s : Sys) : list Sys :=
  match body with
  | [] => []
  | st :: rest =>
      match execute st s with
      | Normal s' => s' :: states rest s'
      | Return _ s' => [s']
      | Throw _ s' => [s']
      end
  end.

(** The outcome of the call as a completion. *)
Definition completion_of (o : Outcome bool) : Completion :=
  match o with
  | Returned value s => Return value s
  | Thrown e s => Throw e s
  end.

(** Of a state [si] reached from [s]: the message has gone to the broker
    since [s]. *)
Definition published_since (s si : Sys) (key : string) (message : RequestMessage) : Prop :=
  Attachments.published (trace si) = Attachments.published (trace s) ++ [(key, message)].

End SendRequestBody.

(* ------------------------------------------------------------------ *)
(** ** An identifier issued again after a timeout *)

Module Reuse.
Import GatewayMk2 Attachments Run Examples Interfaces.







(** Request 9 dispatched on the configured gateway, whose resolver claims
    the id 9. *)
Definition record9 : PendingRequest :=
  {| uid := 9; response := res1; callback := answer; timestamp := 1000;
     additionalValidator := None |}.

Definition pending9 : Sys :=
  state_of (sendRequest 1000 "equipment.details.get" (read_message 9) res1 answer None
              configured).

(** The input is no delivery of the inbox. *)
Definition no_frame (i : Input) : bool :=
  match i with
  | Frame _ => false
  | _ => true
  end.

End Reuse.

(* ------------------------------------------------------------------ *)
(** * Properties *)

Module JsMapFacts.
Import JsMap.

Section Facts.
Context {V : Type}.

Lemma get_set_same (k : Z) (v : V) (m : t V) : get k (set k v m) = Some v.
Proof.
  induction m as [|[k' v'] m IH]; simpl.
  - now rewrite Z.eqb_refl.
  - destruct (k =? k') eqn:E; simpl; rewrite ?Z.eqb_refl, ?E; auto.
Qed.

Lemma get_set_other (k k' : Z) (v : V) (m : t V) :
  k' <> k -> get k' (set k v m) = get k' m.
Proof.
  intros Hne. induction m as [|[k0 v0] m IH]; simpl.
  - destruct (k' =? k) eqn:E; auto. apply Z.eqb_eq in E. contradiction.
  - destruct (k =? k0) eqn:E; simpl.
    + apply Z.eqb_eq in E. subst k0.
      destruct (k' =? k) eqn:E'; auto.
      apply Z.eqb_eq in E'. contradiction.
    + now rewrite IH.
Qed.

Lemma get_delete_same (k : Z) (m : t V) : get k (delete k m) = None.
Proof.
  induction m as [|[k' v'] m IH]; simpl; auto.
  destruct (k =? k') eqn:E; simpl; auto. now rewrite E.
Qed.

Lemma get_delete_other (k k' : Z) (m : t V) :
  k' <> k -> get k' (delete k m) = get k' m.
Proof.
  intros Hne. induction m as [|[k0 v0] m IH]; simpl; auto.
  destruct (k =? k0) eqn:E; simpl.
  - apply Z.eqb_eq in E. subst k0.
    destruct (k' =? k) eqn:E'; auto.
    apply Z.eqb_eq in E'. contradiction.
  - now rewrite IH.
Qed.

Lemma get_delete (k k' : Z) (m : t V) :
  get k' (delete k m) = if k' =? k then None else get k' m.
Proof.
  destruct (k' =? k) eqn:E.
  - apply Z.eqb_eq in E. subst. apply get_delete_same.
  - apply Z.eqb_neq in E. now apply get_delete_other.
Qed.

Lemma get_set (k k' : Z) (v : V) (m : t V) :
  get k' (set k v m) = if k' =? k then Some v else get k' m.
Proof.
  destruct (k' =? k) eqn:E.
  - apply Z.eqb_eq in E. subst. apply get_set_same.
  - apply Z.eqb_neq in E. now apply get_set_other.
Qed.

Lemma get_None_keys (k : Z) (m : t V) : get k m = None <-> ~ In k (keys m).
Proof.
  induction m as [|[k' v'] m IH]; simpl.
  - tauto.
  - destruct (k =? k') eqn:E.
    + apply Z.eqb_eq in E. subst. split; [discriminate | tauto].
    + apply Z.eqb_neq in E. rewrite IH. intuition congruence.
Qed.

Lemma keys_set (k : Z) (v : V) (m : t V) :
  keys (set k v m) = if existsb (Z.eqb k) (keys m) then keys m else keys m ++ [k].
Proof.
  induction m as [|[k' v'] m IH]; simpl; auto.
  destruct (k =? k') eqn:E; simpl.
  - apply Z.eqb_eq in E. now subst.
  - rewrite IH. now destruct (existsb (Z.eqb k) (keys m)).
Qed.

Lemma In_keys_delete (k x : Z) (m : t V) :
  In x (keys (delete k m)) <-> In x (keys m) /\ x <> k.
Proof.
  unfold keys, delete. rewrite !in_map_iff. split.
  - intros [[a b] [<- Hin]]. apply filter_In in Hin as [Hin Hk]. simpl in *.
    split.
    + exists (a, b). auto.
    + apply negb_true_iff, Z.eqb_neq in Hk. congruence.
  - intros [[[a b] [<- Hin]] Hne]. exists (a, b). split; auto.
    apply filter_In. split; auto. simpl in *.
    apply negb_true_iff, Z.eqb_neq. congruence.
Qed.

(** The keys of a [Map] are pairwise distinct, and its operations keep
    them so. *)
Lemma NoDup_keys_set (k : Z) (v : V) (m : t V) :
  NoDup (keys m) -> NoDup (keys (set k v m)).
Proof.
  intros Hnd. rewrite keys_set.
  destruct (existsb (Z.eqb k) (keys m)) eqn:E; auto.
  apply NoDup_app; auto.
  - repeat constructor. simpl. tauto.
  - intros x Hx [Hk|[]]. subst x.
    assert (existsb (Z.eqb k) (keys m) = true); [|congruence].
    apply existsb_exists. exists k. split; auto. apply Z.eqb_refl.
Qed.

Lemma NoDup_keys_delete (k : Z) (m : t V) :
  NoDup (keys m) -> NoDup (keys (delete k m)).
Proof.
  induction m as [|[k' v'] m IH]; simpl; auto.
  intros Hnd. inversion Hnd as [|? ? Hnotin Hnd']; subst.
  destruct (k =? k'); simpl; auto.
  constructor; auto.
  intros Hin. apply In_keys_delete in Hin. tauto.
Qed.

End Facts.
End JsMapFacts.

(** ** The terminator, turn by turn *)

Module TerminatorFacts.
Import GatewayMk2 Run JsMapFacts.

Lemma terminateTimedOut_sweep (now : Z) (s : Sys) :
  terminateTimedOut now s = sweep now (JsMap.keys (table s)) s.
Proof. reflexivity. Qed.

Lemma terminate_entry_spec (now key : Z) (s : Sys) :
  match JsMap.get key (table s) with
  | Some entry =>
      if expired now entry then
        table (terminate_entry now key s) = JsMap.delete key (table s) /\
        http (world (terminate_entry now key s)) = http (world s) ++ [gateway_timeout entry] /\
        identifiers (world (terminate_entry now key s)) =
          remove Z.eq_dec (uid entry) (identifiers (world s)) /\
        trace (terminate_entry now key s) =
          trace s ++ [Log LDebug "terminating request" [uid entry; timestamp entry]]
      else terminate_entry now key s = s
  | None => terminate_entry now key s = s
  end.
Proof.
  unfold terminate_entry, expired.
  destruct (JsMap.get key (table s)) as [entry|]; [|reflexivity].
  destruct (now - timestamp entry >? 15000); [|reflexivity].
  repeat split.
Qed.

Lemma get_Some_keys {V : Type} (k : Z) (v : V) (m : JsMap.t V) :
  JsMap.get k m = Some v -> existsb (Z.eqb k) (JsMap.keys m) = true.
Proof.
  intros H. apply existsb_exists. exists k. split; [|apply Z.eqb_refl].
  destruct (in_dec Z.eq_dec k (JsMap.keys m)) as [Hin|Hout]; auto.
  apply get_None_keys in Hout. congruence.
Qed.

Lemma sweep_get (now : Z) (ks : list Z) :
  forall (s : Sys) (id : Z),
    JsMap.get id (table (sweep now ks s)) =
    match JsMap.get id (table s) with
    | Some r => if expired now r && existsb (Z.eqb id) ks then None else Some r
    | None => None
    end.
Proof.
  induction ks as [|k ks IH]; intros s id; simpl.
  - destruct (JsMap.get id (table s)); auto. now rewrite andb_false_r.
  - rewrite IH. pose proof (terminate_entry_spec now k s) as H.
    destruct (JsMap.get k (table s)) as [e|] eqn:Ek.
    + destruct (expired now e) eqn:Ee.
      * destruct H as (Ht & _). rewrite Ht, get_delete.
        destruct (id =? k) eqn:Eik; simpl; auto.
        apply Z.eqb_eq in Eik. subst id. now rewrite Ek, Ee.
      * rewrite H. destruct (id =? k) eqn:Eik; simpl; auto.
        apply Z.eqb_eq in Eik. subst id. now rewrite Ek, Ee.
    + rewrite H. destruct (id =? k) eqn:Eik; simpl; auto.
      apply Z.eqb_eq in Eik. subst id. now rewrite Ek.
Qed.

(** The terminator writes nothing but a 504 for a record that is in the
    table and over the deadline. *)
Lemma sweep_http (now : Z) (ks : list Z) :
  forall s : Sys,
    exists ws,
      http (world (sweep now ks s)) = http (world s) ++ ws /\
      Forall (fun w => exists id r, In id ks /\ JsMap.get id (table s) = Some r /\
                                    expired now r = true /\ w = gateway_timeout r) ws.
Proof.
  induction ks as [|k ks IH]; intros s; simpl.
  - exists []. split; [now rewrite app_nil_r | constructor].
  - destruct (IH (terminate_entry now k s)) as (ws & Hws & Hall).
    pose proof (terminate_entry_spec now k s) as H.
    destruct (JsMap.get k (table s)) as [e|] eqn:Ek;
      [destruct (expired now e) eqn:Ee|].
    + destruct H as (Ht & Hh & _). exists (gateway_timeout e :: ws). split.
      * rewrite Hws, Hh, <- app_assoc. reflexivity.
      * constructor.
        -- exists k, e. auto.
        -- eapply Forall_impl; [|exact Hall]. simpl.
           intros w (id & r & Hin & Hget & Hex & ->). exists id, r.
           rewrite Ht, get_delete in Hget.
           destruct (id =? k); [discriminate|]. auto.
    + rewrite H in *. exists ws. split; auto.
      eapply Forall_impl; [|exact Hall]. simpl.
      intros w (id & r & Hin & Hrest). exists id, r. auto.
    + rewrite H in *. exists ws. split; auto.
      eapply Forall_impl; [|exact Hall]. simpl.
      intros w (id & r & Hin & Hrest). exists id, r. auto.
Qed.

Lemma sweep_http_In (now : Z) (ks : list Z) :
  forall (s : Sys) (id : Z) (r : PendingRequest),
    JsMap.get id (table s) = Some r -> expired now r = true -> In id ks ->
    In (gateway_timeout r) (http (world (sweep now ks s))).
Proof.
  induction ks as [|k ks IH]; intros s id r Hget Hex Hin; simpl in *; [tauto|].
  pose proof (terminate_entry_spec now k s) as H.
  destruct (Z.eq_dec k id) as [->|Hne].
  - rewrite Hget, Hex in H. destruct H as (_ & Hh & _).
    destruct (sweep_http now ks (terminate_entry now id s)) as (ws & -> & _).
    rewrite Hh. apply in_or_app. left. apply in_or_app. right. now left.
  - destruct Hin as [Heq|Hin]; [contradiction|].
    apply IH with (id := id); auto.
    destruct (JsMap.get k (table s)) as [e|] eqn:Ek;
      [destruct (expired now e) eqn:Ee|]; try (rewrite H; exact Hget).
    destruct H as (Ht & _). rewrite Ht. rewrite get_delete_other; auto.
Qed.

(** Identifiers are only ever released by the terminator, and only those
    of records over the deadline. *)
Lemma sweep_identifiers_incl (now : Z) (ks : list Z) :
  forall (s : Sys) (x : Z),
    In x (identifiers (world (sweep now ks s))) -> In x (identifiers (world s)).
Proof.
  induction ks as [|k ks IH]; intros s x Hin; simpl in *; auto.
  apply IH in Hin. pose proof (terminate_entry_spec now k s) as H.
  destruct (JsMap.get k (table s)) as [e|];
    [destruct (expired now e)|]; try (rewrite H in Hin; exact Hin).
  destruct H as (_ & _ & Hi & _). rewrite Hi in Hin.
  now apply in_remove in Hin.
Qed.

Lemma sweep_released (now : Z) (ks : list Z) :
  forall (s : Sys) (id : Z) (r : PendingRequest),
    JsMap.get id (table s) = Some r -> expired now r = true -> In id ks ->
    ~ In (uid r) (identifiers (world (sweep now ks s))).
Proof.
  induction ks as [|k ks IH]; intros s id r Hget Hex Hin; simpl in *; [tauto|].
  pose proof (terminate_entry_spec now k s) as H.
  destruct (Z.eq_dec k id) as [->|Hne].
  - rewrite Hget, Hex in H. destruct H as (_ & _ & Hi & _).
    intros Habs. apply sweep_identifiers_incl in Habs. rewrite Hi in Habs.
    apply in_remove in Habs. tauto.
  - destruct Hin as [Heq|Hin]; [contradiction|].
    apply IH with (id := id); auto.
    destruct (JsMap.get k (table s)) as [e|] eqn:Ek;
      [destruct (expired now e) eqn:Ee|]; try (rewrite H; exact Hget).
    destruct H as (Ht & _). rewrite Ht. rewrite get_delete_other; auto.
Qed.

Lemma sweep_kept (now : Z) (ks : list Z) :
  forall (s : Sys) (x : Z),
    In x (identifiers (world s)) ->
    ~ In x (identifiers (world (sweep now ks s))) ->
    exists id r, In id ks /\ JsMap.get id (table s) = Some r /\
                 expired now r = true /\ uid r = x.
Proof.
  induction ks as [|k ks IH]; intros s x Hin Hout; simpl in *; [tauto|].
  pose proof (terminate_entry_spec now k s) as H.
  destruct (JsMap.get k (table s)) as [e|] eqn:Ek;
    [destruct (expired now e) eqn:Ee|].
  - destruct H as (Ht & _ & Hi & _).
    destruct (Z.eq_dec (uid e) x) as [Hx|Hx].
    + exists k, e. auto.
    + destruct (IH (terminate_entry now k s) x) as (id & r & Hk & Hget & Hex & Hu); auto.
      * rewrite Hi. apply in_in_remove; auto.
      * rewrite Ht, get_delete in Hget.
        destruct (id =? k); [discriminate|]. exists id, r. auto.
  - rewrite H in *. destruct (IH s x Hin Hout) as (id & r & Hk & Hrest).
    exists id, r. auto.
  - rewrite H in *. destruct (IH s x Hin Hout) as (id & r & Hk & Hrest).
    exists id, r. auto.
Qed.

(** On a table whose keys are distinct the terminator is the [sweep] of the
    specification: the records it answers with 504 and releases are the
    returned ones, in the order of the table, once each, and the table it
    leaves is the one [sweep] leaves. *)
Lemma get_app_fresh {V : Type} (k : Z) (v : V) (front back : JsMap.t V) :
  ~ In k (JsMap.keys front) -> JsMap.get k (front ++ (k, v) :: back) = Some v.
Proof.
  induction front as [|[k' v'] front IH]; simpl; intros Hout.
  - now rewrite Z.eqb_refl.
  - destruct (Z.eqb_spec k k') as [->|_]; [tauto|]. apply IH. tauto.
Qed.

Lemma delete_fresh {V : Type} (k : Z) (m : JsMap.t V) :
  ~ In k (JsMap.keys m) -> JsMap.delete k m = m.
Proof.
  induction m as [|[k' v'] m IH]; simpl; intros Hout; auto.
  destruct (Z.eqb_spec k k') as [->|_]; [tauto|]. simpl. rewrite IH; tauto.
Qed.

Lemma delete_app_fresh {V : Type} (k : Z) (v : V) (front back : JsMap.t V) :
  NoDup (JsMap.keys (front ++ (k, v) :: back)) ->
  JsMap.delete k (front ++ (k, v) :: back) = front ++ back.
Proof.
  unfold JsMap.keys. rewrite map_app. simpl. intros Hnd.
  apply NoDup_remove in Hnd as [_ Hout]. rewrite in_app_iff in Hout.
  unfold JsMap.delete. rewrite filter_app. simpl. rewrite Z.eqb_refl. simpl.
  fold (JsMap.delete k front). fold (JsMap.delete k back).
  rewrite !delete_fresh; auto.
Qed.

Lemma sweep_exact (now : Z) (back : JsMap.t PendingRequest) :
  forall (s : Sys) (front : JsMap.t PendingRequest),
    table s = front ++ back ->
    NoDup (JsMap.keys (front ++ back)) ->
    table (sweep now (JsMap.keys back) s) =
      front ++ snd (RequestTable_sweep now 15000 back) /\
    http (world (sweep now (JsMap.keys back) s)) =
      http (world s) ++ map gateway_timeout (fst (RequestTable_sweep now 15000 back)) /\
    identifiers (world (sweep now (JsMap.keys back) s)) =
      release_all (fst (RequestTable_sweep now 15000 back)) (identifiers (world s)).
Proof.
  induction back as [|[k v] back IH]; intros s front Ht Hnd; simpl.
  - rewrite !app_nil_r in *. auto.
  - assert (Hout : ~ In k (JsMap.keys front)).
    { unfold JsMap.keys in *. rewrite map_app in Hnd. simpl in Hnd.
      apply NoDup_remove in Hnd as [_ Hout]. rewrite in_app_iff in Hout. tauto. }
    pose proof (terminate_entry_spec now k s) as H.
    rewrite Ht, (get_app_fresh k v front back Hout) in H.
    fold (expired now v). destruct (expired now v) eqn:Ee; simpl.
    + destruct H as (Ht' & Hh & Hi & _).
      rewrite (delete_app_fresh k v front back Hnd) in Ht'.
      destruct (IH (terminate_entry now k s) front Ht') as (IHt & IHh & IHi).
      { unfold JsMap.keys in *. rewrite map_app in *. simpl in Hnd.
        now apply NoDup_remove_1 in Hnd. }
      unfold sweep in *. rewrite IHt, IHh, IHi, Hh, Hi, <- app_assoc. auto.
    + rewrite H.
      destruct (IH s (front ++ [(k, v)])) as (IHt & IHh & IHi).
      { now rewrite <- app_assoc. }
      { now rewrite <- app_assoc. }
      unfold sweep in *. rewrite IHt, IHh, IHi, <- app_assoc. auto.
Qed.

Lemma terminateTimedOut_refines_sweep (now : Z) (s : Sys) :
  NoDup (JsMap.keys (table s)) ->
  table (terminateTimedOut now s) = snd (RequestTable_sweep now 15000 (table s)) /\
  http (world (terminateTimedOut now s)) =
    http (world s) ++ map gateway_timeout (fst (RequestTable_sweep now 15000 (table s))) /\
  identifiers (world (terminateTimedOut now s)) =
    release_all (fst (RequestTable_sweep now 15000 (table s))) (identifiers (world s)).
Proof.
  intros Hnd. rewrite terminateTimedOut_sweep.
  exact (sweep_exact now (table s) s [] eq_refl Hnd).
Qed.

(** The terminator logs, and invokes no completion callback. *)
Lemma sweep_fires (now : Z) (ks : list Z) :
  forall (s : Sys) (id : Z), fires id (trace (sweep now ks s)) = fires id (trace s).
Proof.
  induction ks as [|k ks IH]; intros s id; simpl; auto.
  rewrite IH. pose proof (terminate_entry_spec now k s) as H.
  destruct (JsMap.get k (table s)) as [e|];
    [destruct (expired now e)|]; try (now rewrite H).
  destruct H as (_ & _ & _ & Htr). rewrite Htr. unfold fires.
  rewrite filter_app, length_app. simpl. lia.
Qed.

(** It leaves the resolver, the channels and the timer as they were. *)
Lemma sweep_resolver (now : Z) (ks : list Z) :
  forall s : Sys, _resolver (this (sweep now ks s)) = _resolver (this s).
Proof.
  induction ks as [|k ks IH]; intros s; simpl; auto.
  rewrite IH. unfold terminate_entry.
  destruct (JsMap.get k (table s)) as [e|]; auto.
  destruct (now - timestamp e >? 15000); auto.
Qed.

End TerminatorFacts.

(** ** The reply handler and the dispatcher, case by case *)

Module HandlerFacts.
Import GatewayMk2 Run JsMapFacts TerminatorFacts.

Lemma fires_app (id : Z) (a b : list Event) :
  fires id (a ++ b) = (fires id a + fires id b)%nat.
Proof. unfold fires. now rewrite filter_app, length_app. Qed.

Lemma fires_Fired (id : Z) (req : PendingRequest) (json : json) (status id' : Z) :
  numeric json "msg_id" = Some id' ->
  fires id [Fired req json status] = if id' =? id then 1%nat else 0%nat.
Proof.
  intros H. unfold fires. simpl. rewrite H. now destruct (id' =? id).
Qed.

(** A frame either leaves the table alone and invokes no callback, or it
    takes the record of its own id out of the table and invokes at most
    that record's callback, once. *)
Ltac no_fire :=
  intros; simpl; rewrite ?fires_app; unfold fires; simpl; lia.

Lemma handleRawIncoming_cases (m : option Message) (s : Sys) :
  (table (state_of (handleRawIncoming m s)) = table s /\
   forall id, fires id (trace (state_of (handleRawIncoming m s))) = fires id (trace s))
  \/
  (exists id' req,
      JsMap.get id' (table s) = Some req /\
      table (state_of (handleRawIncoming m s)) = JsMap.delete id' (table s) /\
      forall id,
        (fires id (trace s) <= fires id (trace (state_of (handleRawIncoming m s))) /\
         fires id (trace (state_of (handleRawIncoming m s)))
         <= fires id (trace s) + (if (id' =? id)%Z then 1 else 0))%nat).
Proof.
  unfold handleRawIncoming.
  destruct (_resolver (this s)) as [resolver|]; [|left; auto].
  destruct m as [m|]; [|left; split; auto; no_fire].
  destruct (JSON_parse (content m)) as [e|json]; [left; auto|].
  destruct (numeric json "msg_id") as [id'|] eqn:Eid;
    [|left; split; auto; no_fire].
  destruct (numeric json "status") as [status|] eqn:Est;
    [|left; split; auto; no_fire].
  destruct (intercept resolver id') eqn:Ei.
  { left. split; auto. no_fire. }
  change (table (log (Log LDebug "incoming message" [id'; status]) s)) with (table s).
  destruct (JsMap.get id' (table s)) as [req|] eqn:Eg.
  2:{ left. split; auto. no_fire. }
  right. exists id', req. split; auto. split.
  { destruct (additionalValidator req) as [v|]; [|reflexivity].
    unfold settle. destruct (validate v json) as [[|]|err]; reflexivity. }
  intros id.
  destruct (additionalValidator req) as [v|].
  - unfold settle. destruct (validate v json) as [[|]|err]; simpl;
      rewrite !fires_app, ?(fires_Fired id req json status id' Eid);
      unfold fires; simpl; destruct (id' =? id); lia.
  - simpl. rewrite !fires_app, (fires_Fired id req json status id' Eid).
    unfold fires. simpl. destruct (id' =? id); lia.
Qed.

(** [configure] touches neither the table nor any callback. *)
Lemma configure_table (resolver : EntityResolver) (s : Sys) :
  table (state_of (configure resolver s)) = table s /\
  forall id, fires id (trace (state_of (configure resolver s))) = fires id (trace s).
Proof.
  unfold configure, setup_failed.
  repeat (match goal with
          | |- context [match createChannel ?c with _ => _ end] =>
              destruct (createChannel c) as [[?|?] ?]
          | |- context [if negb ?b then _ else _] => destruct b
          end; cbn [negb]; cbv iota);
    (split; [reflexivity | no_fire]).
Qed.

Lemma publish_fires (id : Z) (key : string) (data : RequestMessage) (s : Sys) :
  table (state_of (publish key data s)) = table s /\
  fires id (trace (state_of (publish key data s))) = fires id (trace s).
Proof.
  unfold publish. destruct (sendChannel (this s)); [|auto].
  destruct (obj_get "userID" (properties data)); simpl;
    rewrite !fires_app; unfold fires; simpl; split; auto; lia.
Qed.

(** No turn other than a dispatch under [id] increases the number of
    invocations made plus the number still possible. *)
Lemma step_potential (id : Z) (i : Input) (s : Sys) :
  sends id i = false ->
  (fires id (trace s) <= fires id (trace (step i s)) /\
   fires id (trace (step i s)) + pending id (step i s)
   <= fires id (trace s) + pending id s)%nat.
Proof.
  intros Hs. destruct i as [resolver|m|now|now key message res cb v]; simpl in *.
  - destruct (configure_table resolver s) as (Ht & Hf).
    unfold pending. rewrite Ht, Hf. lia.
  - destruct (handleRawIncoming_cases m s) as [(Ht & Hf)|(id' & req & Hg & Ht & Hf)].
    + unfold pending. rewrite Ht, Hf. lia.
    + destruct (Hf id) as (Hlo & Hhi). split; auto.
      unfold pending. rewrite Ht, get_delete.
      destruct (Z.eqb_spec id id') as [->|Hne].
      * rewrite Z.eqb_refl in Hhi. rewrite Hg. lia.
      * destruct (Z.eqb_spec id' id) as [Heq|_]; [congruence|].
        destruct (JsMap.get id (table s)); lia.
  - unfold fire. destruct (handler (terminatorInterval (this s))).
    rewrite terminateTimedOut_sweep, sweep_fires. split; auto.
    unfold pending. rewrite sweep_get.
    destruct (JsMap.get id (table s)) as [r|]; auto.
    destruct (expired now r && existsb (Z.eqb id) (JsMap.keys (table s))); lia.
  - unfold sendRequest.
    match goal with
    | |- context [publish key message ?s1] =>
        destruct (publish_fires id key message s1) as (Ht & Hf)
    end.
    rewrite Hf. split; [simpl; lia|].
    unfold pending. rewrite Ht. unfold table. simpl.
    rewrite get_set_other; [lia|].
    apply Z.eqb_neq in Hs. congruence.
Qed.

Lemma run_potential (id : Z) (inputs : list Input) :
  forall s : Sys,
    forallb (fun i => negb (sends id i)) inputs = true ->
    (fires id (trace s) <= fires id (trace (run inputs s)) /\
     fires id (trace (run inputs s)) + pending id (run inputs s)
     <= fires id (trace s) + pending id s)%nat.
Proof.
  induction inputs as [|i inputs IH]; intros s Hall; simpl in *; [lia|].
  apply andb_true_iff in Hall as [Hi Hall]. apply negb_true_iff in Hi.
  destruct (step_potential id i s Hi) as (H1 & H2).
  destruct (IH (step i s) Hall) as (H3 & H4).
  unfold run in *. lia.
Qed.

End HandlerFacts.

(* ------------------------------------------------------------------ *)
(** * The properties the specification states *)

Module Spec.
Import GatewayMk2 Attachments Run Examples JsMapFacts TerminatorFacts HandlerFacts.

(** ** Dispatch *)

Lemma published_over_app (a b : list Event) :
  published (a ++ b) = published a ++ published b.
Proof.
  induction a as [|ev a IH]; simpl; auto.
  destruct ev; simpl; auto. now rewrite IH.
Qed.

(** C1. The body of [sendRequest] is two statements, the [set] on the
    request table and then [return this.publish(key, message)]; run one
    after the other they are the call.  The state after each statement of
    the body is listed by [SendRequestBody.states]: there are two, the
    state [s1] in which [publish] is entered and the state the call ends
    in.  In [s1] nothing more has been published, logged or answered than
    before the call, and in EVERY listed state the table holds the record
    {uid = message.msg_id, response, callback, timestamp = now, validator}
    under the message id: there is no point of the call at which the
    message has been handed to the broker while the record is missing.
    When a channel is set the message is the one publication of the call
    and the last event of it; when none is set nothing is published. *)
Theorem sendRequest_inserts_before_publish
  (now : Z) (key : string) (message : RequestMessage) (res : Response)
  (cb : RequestCallback) (validator : option MessageValidator) (s : Sys) :
  let record :=
    {| uid := msg_id message; response := res; callback := cb;
       timestamp := now; additionalValidator := validator |} in
  let body := SendRequestBody.statements now key message res cb validator in
  let after := state_of (sendRequest now key message res cb validator s) in
  SendRequestBody.complete body s =
    SendRequestBody.completion_of (sendRequest now key message res cb validator s) /\
  (exists s1,
      SendRequestBody.states body s = [s1; after] /\
      sendRequest now key message res cb validator s = publish key message s1 /\
      published (trace s1) = published (trace s) /\
      trace s1 = trace s /\
      world s1 = world s) /\
  Forall (fun si => JsMap.get (msg_id message) (table si) = Some record)
    (SendRequestBody.states body s) /\
  match sendChannel (this s) with
  | Some channel =>
      SendRequestBody.published_since s after key message /\
      exists console,
        published console = [] /\
        trace after = trace s ++ console ++ [Published REQUEST_EXCHANGE key message]
  | None => trace after = trace s
  end.
Proof.
  intros record body after.
  set (s1 := on_this (with_outstandingRequests (JsMap.set (msg_id message) record)) s).
  assert (Hcall : sendRequest now key message res cb validator s = publish key message s1)
    by reflexivity.
  assert (Hstates : SendRequestBody.states body s = [s1; after]).
  { unfold body, after. rewrite Hcall. simpl. fold record. fold s1.
    destruct (publish key message s1); reflexivity. }
  assert (Hafter : JsMap.get (msg_id message) (table after) = Some record).
  { unfold after. rewrite Hcall.
    rewrite (proj1 (publish_fires 0 key message s1)). apply get_set_same. }
  split.
  { unfold body. rewrite Hcall. simpl. fold record. fold s1.
    destruct (publish key message s1); reflexivity. }
  split.
  { exists s1. repeat split; auto. }
  split.
  { rewrite Hstates. repeat constructor; [apply get_set_same | exact Hafter]. }
  unfold after, SendRequestBody.published_since. rewrite Hcall.
  unfold publish. simpl.
  destruct (sendChannel (this s)) as [channel|]; simpl; [|reflexivity].
  destruct (obj_get "userID" (properties message)); simpl.
  - split.
    + rewrite !published_over_app. simpl. now rewrite ?app_nil_r.
    + exists [Console "log" (String.append "transmitting to " key)].
      split; [reflexivity|]. now rewrite <- app_assoc.
  - split.
    + rewrite !published_over_app. simpl. now rewrite ?app_nil_r.
    + exists [Console "log" (String.append "transmitting to " key);
              Console "trace" "undefined userID"].
      split; [reflexivity|]. now rewrite <- !app_assoc.
Qed.

(** The order is what the property rests on: a body that publishes without
    the [set] before it reaches a state in which the message is with the
    broker and no record is in the table. *)
Lemma publish_alone_leaves_no_record
  (key : string) (message : RequestMessage) (s : Sys) (channel : Channel) :
  sendChannel (this s) = Some channel ->
  JsMap.get (msg_id message) (table s) = None ->
  exists si,
    SendRequestBody.states [SendRequestBody.ReturnPublish key message] s = [si] /\
    SendRequestBody.published_since s si key message /\
    JsMap.get (msg_id message) (table si) = None.
Proof.
  intros Hch Hnone. unfold SendRequestBody.published_since. simpl.
  unfold publish. rewrite Hch.
  destruct (obj_get "userID" (properties message)); simpl;
    eexists; (split; [reflexivity|]); (split; [|exact Hnone]);
    simpl; rewrite !published_over_app; simpl; rewrite ?app_nil_r; reflexivity.
Qed.

(** ** The terminator *)

Lemma expired_gt (now : Z) (r : PendingRequest) :
  expired now r = true <-> now - timestamp r > 15000.
Proof. unfold expired. rewrite Z.gtb_gt. lia. Qed.

Lemma expired_le (now : Z) (r : PendingRequest) :
  expired now r = false <-> now - timestamp r <= 15000.
Proof.
  unfold expired. destruct (now - timestamp r >? 15000) eqn:E.
  - apply Z.gtb_gt in E. split; [discriminate | lia].
  - rewrite Z.gtb_ltb, Z.ltb_ge in E. tauto.
Qed.

(** C2. The constructor schedules [terminateTimedOut] every 2000 ms.  One
    run of it at clock reading [now], for a record [r] pending under [id]:
    when [now - timestamp r > 15000] the responder of [r] is sent 504 with
    the failure envelope of [SERVICE_TIMEOUT], the record leaves the table
    and its identifier is released; when [now - timestamp r <= 15000] the
    record stays as it was.  Nothing else is written than such 504s, and no
    identifier is released but those of records over the deadline. *)
Theorem terminator_sweeps_expired
  (conn : Connection_) (validator : option MessageValidator) (w : World)
  (now id : Z) (r : PendingRequest) (s : Sys) :
  JsMap.get id (table s) = Some r ->
  let timer := terminatorInterval (this (constructor conn validator w)) in
  let s' := fire timer now s in
  ms timer = 2000 /\
  s' = terminateTimedOut now s /\
  (now - timestamp r > 15000 ->
     In {| responder := response r;
           http_status := 504;
           http_body := MessageUtilities.wrapInFailure ErrorCodes.SERVICE_TIMEOUT |}
        (http (world s')) /\
     ErrorCodes.code ErrorCodes.SERVICE_TIMEOUT = "SERVICE_TIMEOUT" /\
     JsMap.get id (table s') = None /\
     ~ In (uid r) (identifiers (world s'))) /\
  (now - timestamp r <= 15000 -> JsMap.get id (table s') = Some r) /\
  (exists written,
     http (world s') = http (world s) ++ written /\
     Forall (fun write => exists id' r',
                 JsMap.get id' (table s) = Some r' /\
                 now - timestamp r' > 15000 /\
                 write = gateway_timeout r') written) /\
  (forall x, In x (identifiers (world s)) -> ~ In x (identifiers (world s')) ->
             exists id' r', JsMap.get id' (table s) = Some r' /\
                            now - timestamp r' > 15000 /\ uid r' = x).
Proof.
  intros Hget timer s'.
  assert (Hs' : s' = sweep now (JsMap.keys (table s)) s) by reflexivity.
  assert (Hin : In id (JsMap.keys (table s))).
  { destruct (in_dec Z.eq_dec id (JsMap.keys (table s))) as [H|H]; auto.
    apply get_None_keys in H. congruence. }
  split; [reflexivity|]. split; [reflexivity|]. rewrite Hs'.
  split; [|split; [|split]].
  - intros Hold. apply expired_gt in Hold.
    split; [|split; [|split]].
    + apply (sweep_http_In now _ s id r); auto.
    + reflexivity.
    + rewrite sweep_get, Hget, Hold. simpl.
      now rewrite (get_Some_keys id r (table s) Hget).
    + apply (sweep_released now _ s id r); auto.
  - intros Hyoung. apply expired_le in Hyoung.
    now rewrite sweep_get, Hget, Hyoung.
  - destruct (sweep_http now (JsMap.keys (table s)) s) as (ws & Hws & Hall).
    exists ws. split; auto.
    eapply Forall_impl; [|exact Hall]. simpl.
    intros write (id' & r' & _ & Hg & Hex & Hw). exists id', r'.
    apply expired_gt in Hex. auto.
  - intros x Hx Hout.
    destruct (sweep_kept now _ s x Hx Hout) as (id' & r' & _ & Hg & Hex & Hu).
    exists id', r'. apply expired_gt in Hex. auto.
Qed.

(** At clock reading 17000 request 7 (of 1000) is over the deadline and
    request 8 (of 10000) is not. *)
Lemma terminator_sweeps_expired_witness :
  JsMap.get 7 (table pending78) = Some record7 /\
  JsMap.get 7 (table (terminateTimedOut 17000 pending78)) = None /\
  ~ In 7 (identifiers (world (terminateTimedOut 17000 pending78))).
Proof.
  split; [reflexivity|].
  destruct (terminator_sweeps_expired connection0 None (world created)
              17000 7 record7 pending78 eq_refl)
    as (_ & _ & Hold & _).
  destruct Hold as (_ & _ & Hgone & Hfree); [simpl; lia|].
  split; assumption.
Defined.

(** ** The reply demultiplexer *)

(** What the handler does with a frame that decodes to a value carrying a
    numeric [msg_id] and a numeric [status], once a resolver is set. *)
Lemma handleRawIncoming_reply
  (s : Sys) (resolver : EntityResolver) (json : json) (id status : Z) :
  _resolver (this s) = Some resolver ->
  numeric json "msg_id" = Some id ->
  numeric json "status" = Some status ->
  handleRawIncoming (frame json) s =
  let s0 := log (Log LDebug "incoming message" [id; status]) s in
  if intercept resolver id then
    Returned tt
      (log (Handed json)
         (on_this (with_resolver (Some (resolver_consume resolver id json)))
            (on_world (MessageUtilities.identifierConsumed id) s0)))
  else
    match JsMap.get id (table s) with
    | None =>
        Returned tt
          (log (Log LWarn
                  "[gateway raw incoming]: message was received that did not match a pending request. has it already timed out?"
                  [id]) s0)
    | Some request =>
        let s1 := on_this (with_outstandingRequests (JsMap.delete id)) s0 in
        match additionalValidator request with
        | Some v => Returned tt (settle request v json status s1)
        | None =>
            Returned tt
              (on_world (callback request (response request) (timestamp request) json status)
                 (log (Fired request json status) s1))
        end
    end.
Proof.
  intros Hr Hid Hst. unfold handleRawIncoming, frame. simpl.
  rewrite Hr, Hid, Hst. reflexivity.
Qed.

Lemma pending_le_1 (id : Z) (s : Sys) : (pending id s <= 1)%nat.
Proof. unfold pending. destruct (JsMap.get id (table s)); lia. Qed.

(** C3. Over any sequence of frames (duplicates included), terminator runs
    and dispatches under other ids, the completion callback of the record
    pending under [id] is invoked at most once, and not at all when no
    record is pending.  A frame that invokes it has taken the record out of
    the table, and nothing that follows invokes it again. *)
Theorem callback_fires_at_most_once (id : Z) (inputs : list Input) (s : Sys) :
  forallb (fun i => negb (sends id i)) inputs = true ->
  (fires id (trace (run inputs s)) <= fires id (trace s) + pending id s)%nat /\
  (pending id s <= 1)%nat /\
  (forall m,
      fires id (trace (step (Frame m) s)) = S (fires id (trace s)) ->
      JsMap.get id (table (step (Frame m) s)) = None /\
      forall later,
        forallb (fun i => negb (sends id i)) later = true ->
        fires id (trace (run later (step (Frame m) s))) =
        fires id (trace (step (Frame m) s))).
Proof.
  intros Hall. split; [|split].
  - destruct (run_potential id inputs s Hall). lia.
  - apply pending_le_1.
  - intros m Hfired.
    assert (Hgone : JsMap.get id (table (step (Frame m) s)) = None).
    { simpl in *.
      destruct (handleRawIncoming_cases m s) as [(_ & Hf)|(id' & req & Hg & Ht & Hf)].
      - rewrite Hf in Hfired. lia.
      - rewrite Ht, get_delete. destruct (Hf id) as (_ & Hhi).
        destruct (Z.eqb_spec id id') as [_|Hne]; auto.
        destruct (Z.eqb_spec id' id) as [Heq|_]; [congruence|]. lia. }
    split; auto. intros later Hlater.
    destruct (run_potential id later (step (Frame m) s) Hlater) as (Hlo & Hhi).
    unfold pending in Hhi at 2. rewrite Hgone in Hhi. lia.
Qed.

(** The reply to request 7 delivered three times, a terminator run in
    between: one invocation. *)
Lemma callback_fires_at_most_once_witness :
  (fires 7 (trace (run [Frame (frame (reply 7 0 [])); Tick 100000;
                        Frame (frame (reply 7 0 [])); Frame (frame (reply 7 0 []))]
                     pending7)) <= 1)%nat.
Proof.
  exact (proj1 (callback_fires_at_most_once 7
                  [Frame (frame (reply 7 0 [])); Tick 100000;
                   Frame (frame (reply 7 0 [])); Frame (frame (reply 7 0 []))]
                  pending7 eq_refl)).
Defined.





(** ** Release of identifiers *)

(** C5, as stated, fails on the direct completion path: the reply to
    request 7 is matched, the record leaves the table and its callback is
    invoked (it answers 200), and the identifier 7 is still allocated. *)
Lemma direct_completion_keeps_identifier :
  In 7 (identifiers (world pending7)) /\
  JsMap.get 7 (table pending7) = Some record7 /\
  JsMap.get 7 (table completed7) = None /\
  fires 7 (trace completed7) = 1%nat /\
  http (world completed7) =
    [{| responder := res1; http_status := 200;
        http_body := Payload (reply 7 0 []) |}] /\
  In 7 (identifiers (world completed7)).
Proof.
  simpl. repeat split; auto.
Qed.

(** C5, amended.  The core releases an identifier on the timeout path and
    on the resolver-intercept path.  On the direct completion path it
    releases nothing itself: the world after the reply is the world the
    completion callback makes of the one before, so the identifier is
    released there exactly when the callback releases it. *)
Theorem identifier_release_paths
  (s : Sys) (resolver : EntityResolver) (json : json) (id status : Z) :
  _resolver (this s) = Some resolver ->
  numeric json "msg_id" = Some id ->
  numeric json "status" = Some status ->
  let s' := state_of (handleRawIncoming (frame json) s) in
  (forall now r,
      JsMap.get id (table s) = Some r -> now - timestamp r > 15000 ->
      ~ In (uid r) (identifiers (world (terminateTimedOut now s)))) /\
  (intercept resolver id = true ->
     identifiers (world s') = remove Z.eq_dec id (identifiers (world s)) /\
     ~ In id (identifiers (world s'))) /\
  (forall request,
      intercept resolver id = false ->
      JsMap.get id (table s) = Some request ->
      match additionalValidator request with
      | Some v => validate v json = Resolved true
      | None => True
      end ->
      fires id (trace s') = S (fires id (trace s)) /\
      world s' =
        callback request (response request) (timestamp request) json status (world s)).
Proof.
  intros Hr Hid Hst s'. split; [|split].
  - intros now r Hget Hold. rewrite terminateTimedOut_sweep.
    apply (sweep_released now _ s id r); auto.
    + now apply expired_gt.
    + destruct (in_dec Z.eq_dec id (JsMap.keys (table s))) as [H|H]; auto.
      apply get_None_keys in H. congruence.
  - intros Hi. unfold s'.
    rewrite (handleRawIncoming_reply s resolver json id status Hr Hid Hst).
    simpl. rewrite Hi. simpl. split; [reflexivity|]. apply remove_In.
  - intros request Hi Hget Hv. unfold s'.
    rewrite (handleRawIncoming_reply s resolver json id status Hr Hid Hst).
    simpl. rewrite Hi, Hget.
    destruct (additionalValidator request) as [v|]; simpl.
    + unfold settle. rewrite Hv. simpl. split; [|reflexivity].
      rewrite !fires_app, (fires_Fired id request json status id Hid), Z.eqb_refl.
      unfold fires. simpl. lia.
    + split; [|reflexivity].
      rewrite !fires_app, (fires_Fired id request json status id Hid), Z.eqb_refl.
      unfold fires. simpl. lia.
Qed.

(** The reply to request 7 at the gateway of the examples, whose callback
    answers and releases nothing. *)
Lemma identifier_release_paths_witness :
  world (state_of (handleRawIncoming (frame (reply 7 0 [])) pending7)) =
  answer res1 1000 (reply 7 0 []) 0 (world pending7).
Proof.
  exact (proj2 (proj2 (proj2
           (identifier_release_paths pending7 resolver0 (reply 7 0 []) 7 0
              eq_refl eq_refl eq_refl))
           record7 eq_refl eq_refl I)).
Defined.

(** With a callback that releases the identifier of the reply, the direct
    completion path leaves the identifier 7 free. *)
Example releasing_callback_releases :
  identifiers (world (state_of (handleRawIncoming (frame (reply 7 0 [])) releasing7))) = [8].
Proof. reflexivity. Qed.

(** ** Frames that do not decode, or decode to something else than a reply *)

Lemma numeric_non_object (j : json) (key : string) :
  is_object j = false -> numeric j key = None.
Proof. destruct j; simpl; intros H; try reflexivity. discriminate. Qed.

(** C6, the input on which the code departs from the specification: a
    frame whose payload is the text "{" does not decode, and the
    [SyntaxError] of [JSON.parse] leaves the handler of a configured
    gateway, where the specification has it caught and logged. *)
Lemma undecodable_frame_escapes :
  handleRawIncoming (Some {| content := Malformed "{" |}) configured =
  Thrown SyntaxError configured.
Proof. reflexivity. Qed.

(** C6, what the code does, a defect against the specification.  With a
    resolver set, the handler guards every case but one: a delivery that is
    null, and a payload that decodes to a value which is not an object or
    which lacks a numeric [msg_id] or a numeric [status], are dropped with
    a logged warning, the handler returning with nothing else changed.
    [JSON.parse] alone is left unguarded: on every payload that does not
    decode the [SyntaxError] leaves the handler, nothing being logged. *)
Theorem undecodable_raises_malformed_dropped (s : Sys) (resolver : EntityResolver) :
  _resolver (this s) = Some resolver ->
  (forall text,
      handleRawIncoming (Some {| content := Malformed text |}) s = Thrown SyntaxError s) /\
  handleRawIncoming None s =
    Returned tt (log (Log LWarn "[gateway raw incoming]: null message received, ignoring it" []) s) /\
  (forall j,
      is_object j = false \/ numeric j "msg_id" = None ->
      handleRawIncoming (frame j) s =
      Returned tt
        (log (Log LWarn "[gateway raw incoming]: message was received without an ID. Ignoring" [])
           s)) /\
  (forall j id,
      numeric j "msg_id" = Some id -> numeric j "status" = None ->
      handleRawIncoming (frame j) s =
      Returned tt
        (log (Log LWarn
                "[gateway raw incoming]: message was received without a status. Ignoring" [])
           s)).
Proof.
  intros Hr. unfold handleRawIncoming, frame. rewrite Hr. simpl.
  split; [reflexivity|]. split; [reflexivity|]. split.
  - intros j [Hobj|Hid].
    + now rewrite (numeric_non_object j "msg_id" Hobj).
    + now rewrite Hid.
  - intros j id Hid Hst. now rewrite Hid, Hst.
Qed.

(** At the configured gateway: the payloads [[1, 2]] and "{". *)
Lemma undecodable_raises_malformed_dropped_witness :
  handleRawIncoming (frame (JArr [JNum 1; JNum 2])) configured =
    Returned tt
      (log (Log LWarn "[gateway raw incoming]: message was received without an ID. Ignoring" [])
         configured) /\
  handleRawIncoming (Some {| content := Malformed "{" |}) configured =
    Thrown SyntaxError configured.
Proof.
  destruct (undecodable_raises_malformed_dropped configured resolver0 eq_refl)
    as (Hbad & _ & Hdrop & _).
  split.
  - apply Hdrop. left. reflexivity.
  - apply Hbad.
Defined.


(** ** The additional validator *)

(** C7. A reply matched to a record that carries an additional validator:
    the record has left the table; when the validator accepts, the
    completion callback is invoked with (response, timestamp, reply,
    reply.status); when it answers false, and when it throws, the event is
    logged (a warning, an error), no callback is invoked and the world is
    left as it was: the core writes no HTTP response in its place. *)
Theorem validator_decides_completion
  (s : Sys) (resolver : EntityResolver) (json : json) (id status : Z)
  (request : PendingRequest) (v : MessageValidator) :
  _resolver (this s) = Some resolver ->
  intercept resolver id = false ->
  numeric json "msg_id" = Some id ->
  numeric json "status" = Some status ->
  JsMap.get id (table s) = Some request ->
  additionalValidator request = Some v ->
  exists s',
    handleRawIncoming (frame json) s = Returned tt s' /\
    table s' = JsMap.delete id (table s) /\
    match validate v json with
    | Resolved true =>
        trace s' = trace s ++ [Log LDebug "incoming message" [id; status];
                               Fired request json status] /\
        world s' =
          callback request (response request) (timestamp request) json status (world s)
    | Resolved false =>
        trace s' = trace s ++ [Log LDebug "incoming message" [id; status];
                               Log LWarn
                                 "[gateway raw incoming]: message was rejected because it didn't pass the additional validator"
                                 []] /\
        world s' = world s
    | Rejected _ =>
        trace s' = trace s ++ [Log LDebug "incoming message" [id; status];
                               Log LError
                                 "[gateway raw incoming]: message was rejected because the validator errored out"
                                 []] /\
        world s' = world s
    end.
Proof.
  intros Hr Hi Hid Hst Hget Hv.
  rewrite (handleRawIncoming_reply s resolver json id status Hr Hid Hst).
  simpl. rewrite Hi, Hget, Hv. eexists. split; [reflexivity|].
  unfold settle. destruct (validate v json) as [[|]|err]; simpl;
    rewrite <- app_assoc; auto.
Qed.

(** Request 7 guarded by a validator that rejects: its reply is taken, no
    callback is invoked and nothing is written. *)
Lemma validator_decides_completion_witness :
  exists s',
    handleRawIncoming (frame (reply 7 0 [])) guarded7 = Returned tt s' /\
    fires 7 (trace s') = 0%nat /\
    http (world s') = [] /\
    JsMap.get 7 (table s') = None.
Proof.
  destruct (validator_decides_completion guarded7 resolver0 (reply 7 0 []) 7 0
              {| uid := 7; response := res1; callback := answer; timestamp := 1000;
                 additionalValidator := Some rejecting |}
              rejecting eq_refl eq_refl eq_refl eq_refl eq_refl eq_refl)
    as (s' & Hrun & Htable & Htrace & Hworld).
  exists s'. split; [exact Hrun|].
  split; [rewrite Htrace; reflexivity|].
  split; [rewrite Hworld; reflexivity|].
  rewrite Htable. reflexivity.
Defined.

(** ** Insertion under an id that is already pending *)

(** C8, as stated, fails: request 7 is pending for the responder [res1];
    a second [sendRequest] under the id 7, for [res2], returns as any
    other, and the table then holds the second record under 7: the first
    one has been replaced. *)
Lemma second_sendRequest_replaces :
  JsMap.get 7 (table pending7) = Some record7 /\
  exists s',
    sendRequest 2000 "equipment.details.get" (read_message 7) res2 release_and_answer None
      pending7 = Returned true s' /\
    JsMap.get 7 (table s') = Some second7 /\
    response second7 <> response record7 /\
    JsMap.keys (table s') = [7].
Proof.
  split; [reflexivity|]. eexists. split; [reflexivity|].
  split; [reflexivity|]. split; [discriminate | reflexivity].
Qed.

(** C8, amended.  [sendRequest] makes no test of presence: when a record
    is pending under the id of the message, the call goes on to publish as
    it always does, the new record takes the place of the old one, which
    is lost, and no other record is touched.  The table being a map, it
    holds one record for an id before and after. *)
Theorem sendRequest_replaces_pending
  (now : Z) (key : string) (message : RequestMessage) (res : Response)
  (cb : RequestCallback) (validator : option MessageValidator)
  (s : Sys) (old : PendingRequest) :
  JsMap.get (msg_id message) (table s) = Some old ->
  NoDup (JsMap.keys (table s)) ->
  let record :=
    {| uid := msg_id message; response := res; callback := cb;
       timestamp := now; additionalValidator := validator |} in
  let s' := state_of (sendRequest now key message res cb validator s) in
  JsMap.get (msg_id message) (table s') = Some record /\
  (forall k, k <> msg_id message -> JsMap.get k (table s') = JsMap.get k (table s)) /\
  JsMap.keys (table s') = JsMap.keys (table s) /\
  NoDup (JsMap.keys (table s')) /\
  match sendChannel (this s) with
  | Some channel =>
      sendRequest now key message res cb validator s =
      Returned (publish_accepted channel) s'
  | None =>
      sendRequest now key message res cb validator s =
      Thrown (Err "Gateway is not configured, make sure you have called configure") s'
  end.
Proof.
  intros Hold Hnd record s'.
  assert (Ht : table s' = JsMap.set (msg_id message) record (table s)).
  { unfold s', sendRequest.
    match goal with
    | |- context [publish key message ?s1] =>
        destruct (publish_fires 0 key message s1) as (Ht & _)
    end.
    rewrite Ht. reflexivity. }
  rewrite Ht. split; [apply get_set_same|].
  split; [intros k Hk; now apply get_set_other|].
  assert (Hkeys : JsMap.keys (JsMap.set (msg_id message) record (table s)) =
                  JsMap.keys (table s)).
  { rewrite keys_set. now rewrite (get_Some_keys _ old (table s) Hold). }
  split; [exact Hkeys|]. split; [now rewrite Hkeys|].
  unfold s', sendRequest, publish. simpl.
  destruct (sendChannel (this s)); reflexivity.
Qed.

Lemma sendRequest_replaces_pending_witness :
  JsMap.get 7
    (table (state_of (sendRequest 2000 "equipment.details.get" (read_message 7) res2
                        release_and_answer None pending7))) =
  Some second7.
Proof.
  refine (proj1
            (sendRequest_replaces_pending 2000 "equipment.details.get" (read_message 7)
               res2 release_and_answer None pending7 record7 eq_refl _)).
  simpl. repeat constructor. simpl. tauto.
Defined.


(** The keys of the table stay pairwise distinct along every run that
    starts from a newly constructed gateway: no two pending records share
    an id. *)
Lemma step_keys_distinct (i : Input) (s : Sys) :
  NoDup (JsMap.keys (table s)) -> NoDup (JsMap.keys (table (step i s))).
Proof.
  intros Hnd. destruct i as [resolver|m|now|now key message res cb v]; simpl.
  - now rewrite (proj1 (configure_table resolver s)).
  - destruct (handleRawIncoming_cases m s) as [(Ht & _)|(id' & req & _ & Ht & _)];
      rewrite Ht; auto using NoDup_keys_delete.
  - unfold fire. destruct (handler (terminatorInterval (this s))).
    rewrite terminateTimedOut_sweep.
    generalize (JsMap.keys (table s)) at 1. intros ks. revert s Hnd.
    induction ks as [|k ks IH]; intros s Hnd; simpl; auto.
    apply IH. pose proof (terminate_entry_spec now k s) as H.
    destruct (JsMap.get k (table s)) as [e|];
      [destruct (expired now e)|]; try (now rewrite H).
    destruct H as (Ht & _). rewrite Ht. now apply NoDup_keys_delete.
  - unfold sendRequest.
    match goal with
    | |- context [publish key message ?s1] =>
        destruct (publish_fires 0 key message s1) as (Ht & _)
    end.
    rewrite Ht. unfold table. simpl. now apply NoDup_keys_set.
Qed.

Lemma run_keys_distinct (inputs : list Input) (conn : Connection_)
  (validator : option MessageValidator) (w : World) :
  NoDup (JsMap.keys (table (run inputs (constructor conn validator w)))).
Proof.
  assert (H : forall s, NoDup (JsMap.keys (table s)) ->
                        NoDup (JsMap.keys (table (run inputs s)))).
  { induction inputs as [|i inputs IH]; intros s Hnd; simpl; auto.
    apply IH. now apply step_keys_distinct. }
  apply H. constructor.
Qed.

(** ** The handlers of [GET /E/:id] *)

Lemma published_app (a b : list Event) : published (a ++ b) = published a ++ published b.
Proof.
  induction a as [|ev a IH]; simpl; auto.
  destruct ev; simpl; auto. now rewrite IH.
Qed.

Lemma sendRequest_published
  (now : Z) (key : string) (message : RequestMessage) (res : Response)
  (cb : RequestCallback) (validator : option MessageValidator) (s : Sys)
  (channel : Channel) :
  sendChannel (this s) = Some channel ->
  published (trace (state_of (await (sendRequest now key message res cb validator s)))) =
  published (trace s) ++ [(key, message)].
Proof.
  intros Hch. unfold sendRequest, publish. simpl. rewrite Hch.
  destruct (obj_get "userID" (properties message)); simpl;
    rewrite !published_app; simpl; now rewrite ?app_nil_r.
Qed.

(** The equipment handler puts the id of the path into the message it
    publishes to [equipment.details.get]. *)
Lemma getEquipmentHandler_publishes_path_id
  (Transformer : Type) (factory : option Transformer -> RequestCallback)
  (resolve : option EntityResolver -> string -> Transformer)
  (resolver : option EntityResolver)
  (now : Z) (validator : option MessageValidator)
  (req : Request) (res : Response) (s : Sys) (channel : Channel) (id : json) :
  sendChannel (this s) = Some channel ->
  obj_get "id" (params req) = Some id ->
  published
    (trace (state_of
              (getEquipmentHandler Transformer factory resolve resolver
                 (fun key message r cb => sendRequest now key message r cb validator)
                 req res s))) =
  published (trace s) ++
  [("equipment.details.get",
    {| msg_id := MessageUtilities.fresh (identifiers (world s));
       properties := [("msg_intention", JStr "READ"); ("status", JNum 0);
                      ("userID", JStr (userID (uemsUser req))); ("id", id)] |})].
Proof.
  intros Hch Hid. unfold getEquipmentHandler, generateMessageIdentifier.
  unfold MessageUtilities.has, member. simpl. rewrite Hid. simpl.
  now rewrite sendRequest_published with (channel := channel).
Qed.

(** C9 holds of the equipment handler and fails for the user handler.
    [getUserHandler] requires the id of the path to be present and then
    publishes to [user.details.get] a message made of [msg_id],
    [msg_intention], [status] and [userID] alone: the id of the path is not
    in it. *)
Theorem getUserHandler_publishes_no_path_id
  (Transformer : Type) (factory : option Transformer -> RequestCallback)
  (now : Z) (validator : option MessageValidator)
  (req : Request) (res : Response) (s : Sys) (channel : Channel) (id : json) :
  sendChannel (this s) = Some channel ->
  obj_get "id" (params req) = Some id ->
  exists message,
    published
      (trace (state_of
                (getUserHandler Transformer factory
                   (fun key message r cb => sendRequest now key message r cb validator)
                   req res s))) =
    published (trace s) ++ [("user.details.get", message)] /\
    message =
      {| msg_id := MessageUtilities.fresh (identifiers (world s));
         properties := [("msg_intention", JStr "READ"); ("status", JNum 0);
                        ("userID", JStr (userID (uemsUser req)))] |} /\
    obj_get "id" (properties message) = None.
Proof.
  intros Hch Hid. eexists. split; [|split; [reflexivity|reflexivity]].
  unfold getUserHandler, generateMessageIdentifier.
  unfold MessageUtilities.has, member. simpl. rewrite Hid. simpl.
  now rewrite sendRequest_published with (channel := channel).
Qed.

(** [GET /user/abc] and [GET /equipment/abc] at the configured gateway. *)
Lemma getUserHandler_publishes_no_path_id_witness :
  published
    (trace (state_of (getUserHandler unit (fun _ => answer) send0 get_abc res1 configured))) =
  [("user.details.get", read_message 9)].
Proof.
  destruct (getUserHandler_publishes_no_path_id unit (fun _ => answer) 1000 None
              get_abc res1 configured channel0 (JStr "abc") eq_refl eq_refl)
    as (message & Hpub & Hmsg & _).
  rewrite Hmsg in Hpub. exact Hpub.
Defined.

Example getEquipmentHandler_get_abc :
  published
    (trace (state_of (getEquipmentHandler unit (fun _ => answer) (fun _ _ => tt) None
                        send0 get_abc res1 configured))) =
  [("equipment.details.get",
    {| msg_id := 9;
       properties := [("msg_intention", JStr "READ"); ("status", JNum 0);
                      ("userID", JStr "u1"); ("id", JStr "abc")] |})].
Proof. reflexivity. Qed.

(** ** A gateway that is not configured *)

Lemma configure_returned (resolver : EntityResolver) (s s' : Sys) :
  configure resolver s = Returned tt s' ->
  _resolver (this s') = Some resolver /\ sendChannel (this s') <> None.
Proof.
  unfold configure, setup_failed.
  repeat (match goal with
          | |- context [match createChannel ?c with _ => _ end] =>
              destruct (createChannel c) as [[?|?] ?]
          | |- context [if negb ?b then _ else _] => destruct b
          end; cbn [negb]; cbv iota);
    intros H; try discriminate H.
  injection H as <-. simpl. split; [reflexivity | discriminate].
Qed.

(** C10. While no send channel is set, [publish] throws the error
    'Gateway is not configured, ...' and returns no boolean, and so does
    [sendRequest], which has put its record into the table by then; while
    no resolver is set, [handleRawIncoming] throws on every delivery and
    drops nothing.  Both hold of a gateway that has just been
    constructed. *)
Theorem unconfigured_gateway_throws (s : Sys) :
  (sendChannel (this s) = None ->
   forall now key message res cb validator,
     publish key message s =
       Thrown (Err "Gateway is not configured, make sure you have called configure") s /\
     exists s1,
       sendRequest now key message res cb validator s =
         Thrown (Err "Gateway is not configured, make sure you have called configure") s1 /\
       JsMap.get (msg_id message) (table s1) =
         Some {| uid := msg_id message; response := res; callback := cb;
                 timestamp := now; additionalValidator := validator |} /\
       trace s1 = trace s /\ world s1 = world s) /\
  (_resolver (this s) = None ->
   forall delivery,
     handleRawIncoming delivery s =
       Thrown (Err "Gateway not configured properly, no resolver") s) /\
  (forall conn validator w,
      sendChannel (this (constructor conn validator w)) = None /\
      _resolver (this (constructor conn validator w)) = None).
Proof.
  split; [|split].
  - intros Hch now key message res cb validator. split.
    + unfold publish. now rewrite Hch.
    + eexists. split.
      * unfold sendRequest, publish. simpl. rewrite Hch. reflexivity.
      * split; [apply get_set_same|]. split; reflexivity.
  - intros Hr delivery. unfold handleRawIncoming. now rewrite Hr.
  - intros conn validator w. split; reflexivity.
Qed.

(** The gateway of the examples before [configure]. *)
Lemma unconfigured_gateway_throws_witness :
  publish "equipment.details.get" (read_message 7) created =
    Thrown (Err "Gateway is not configured, make sure you have called configure") created /\
  handleRawIncoming (frame (reply 7 0 [])) created =
    Thrown (Err "Gateway not configured properly, no resolver") created.
Proof.
  destruct (unconfigured_gateway_throws created) as (Hpublish & Hincoming & _).
  split.
  - exact (proj1 (Hpublish eq_refl 1000 "equipment.details.get" (read_message 7)
                    res1 answer None)).
  - exact (Hincoming eq_refl (frame (reply 7 0 []))).
Defined.

End Spec.

(* ------------------------------------------------------------------ *)
(** * Further properties of the code *)

Module Extra.
Import GatewayMk2 Attachments Run Examples Interfaces Observations.
Import JsMapFacts TerminatorFacts HandlerFacts.

(** ** Dispatch, reply and timeout together *)

Lemma delete_set_same {V : Type} (k : Z) (v : V) (m : JsMap.t V) :
  JsMap.delete k (JsMap.set k v m) = JsMap.delete k m.
Proof.
  induction m as [|[k' v'] m IH]; simpl.
  - now rewrite Z.eqb_refl.
  - destruct (k =? k') eqn:E; simpl.
    + now rewrite Z.eqb_refl.
    + rewrite ?E; simpl; now rewrite IH.
Qed.

(** What [sendRequest] leaves behind, whether [publish] returned or
    threw. *)
Lemma sendRequest_state
  (now : Z) (key : string) (message : RequestMessage) (res : Response)
  (cb : RequestCallback) (validator : option MessageValidator) (s : Sys) :
  let s1 := state_of (sendRequest now key message res cb validator s) in
  table s1 =
    JsMap.set (msg_id message)
      {| uid := msg_id message; response := res; callback := cb;
         timestamp := now; additionalValidator := validator |} (table s) /\
  world s1 = world s /\
  _resolver (this s1) = _resolver (this s) /\
  sendChannel (this s1) = sendChannel (this s) /\
  forall id, fires id (trace s1) = fires id (trace s).
Proof.
  unfold sendRequest, publish. simpl.
  destruct (sendChannel (this s)) as [channel|] eqn:Hch; simpl.
  - destruct (obj_get "userID" (properties message)); simpl;
      repeat split; auto; no_fire.
  - repeat split; auto.
Qed.

(** X1. A request dispatched and then answered: when the reply carries the
    id of the message and a numeric status, the resolver does not claim the
    id and the validator given with the request (if any) accepts the reply,
    the callback given with the request is invoked exactly once, on the
    response given with it, the clock reading of the dispatch, the reply
    and its status; the record is gone from the table afterwards.  This is
    so whatever [publish] answered. *)
Theorem request_reply_round_trip
  (now : Z) (key : string) (message : RequestMessage) (res : Response)
  (cb : RequestCallback) (validator : option MessageValidator) (s : Sys)
  (resolver : EntityResolver) (json : json) (status : Z) :
  _resolver (this s) = Some resolver ->
  intercept resolver (msg_id message) = false ->
  numeric json "msg_id" = Some (msg_id message) ->
  numeric json "status" = Some status ->
  match validator with
  | Some v => validate v json = Resolved true
  | None => True
  end ->
  let s1 := state_of (sendRequest now key message res cb validator s) in
  let s2 := state_of (handleRawIncoming (frame json) s1) in
  handleRawIncoming (frame json) s1 = Returned tt s2 /\
  world s2 = cb res now json status (world s) /\
  fires (msg_id message) (trace s2) = S (fires (msg_id message) (trace s)) /\
  table s2 = JsMap.delete (msg_id message) (table s).
Proof.
  intros Hr Hi Hid Hst Hv s1 s2.
  destruct (sendRequest_state now key message res cb validator s)
    as (Ht & Hw & Hr1 & _ & Hf).
  fold s1 in Ht, Hw, Hr1, Hf. rewrite Hr in Hr1.
  assert (Hrun : handleRawIncoming (frame json) s1 =
                 Returned tt
                   (on_world (cb res now json status)
                      (log (Fired {| uid := msg_id message; response := res; callback := cb;
                                     timestamp := now; additionalValidator := validator |}
                              json status)
                         (on_this (with_outstandingRequests (JsMap.delete (msg_id message)))
                            (log (Log LDebug "incoming message" [msg_id message; status])
                               s1))))).
  { rewrite (Spec.handleRawIncoming_reply s1 resolver json (msg_id message) status
               Hr1 Hid Hst).
    simpl. rewrite Hi, Ht, get_set_same. simpl.
    destruct validator as [v|]; [|reflexivity].
    unfold settle. simpl. now rewrite Hv. }
  unfold s2. rewrite Hrun. simpl. split; [reflexivity|]. split; [now rewrite Hw|].
  split.
  - rewrite !fires_app, Hf.
    rewrite (fires_Fired (msg_id message) _ json status (msg_id message) Hid), Z.eqb_refl.
    unfold fires. simpl. lia.
  - unfold table in *. simpl. rewrite Ht. apply delete_set_same.
Qed.

(** Request 7 dispatched on the configured gateway with a validator that
    accepts, and answered. *)
Lemma request_reply_round_trip_witness :
  http (world (state_of (handleRawIncoming (frame (reply 7 0 []))
                           (state_of (sendRequest 1000 "equipment.details.get"
                                        (read_message 7) res1 answer (Some accepting)
                                        configured))))) =
  [{| responder := res1; http_status := 200; http_body := Payload (reply 7 0 []) |}].
Proof.
  destruct (request_reply_round_trip 1000 "equipment.details.get" (read_message 7) res1
              answer (Some accepting) configured resolver0 (reply 7 0 []) 0
              eq_refl eq_refl eq_refl eq_refl eq_refl)
    as (_ & Hworld & _).
  rewrite Hworld. reflexivity.
Defined.

(** X2. A dispatch on a gateway that has no send channel throws, and the
    record it has put into the table is nevertheless answered by the
    terminator: once [now - sent > 15000], a run of the terminator writes
    504 to the response given with the request, takes the record out and
    releases the id of the message. *)
Theorem failed_dispatch_still_times_out
  (sent now : Z) (key : string) (message : RequestMessage) (res : Response)
  (cb : RequestCallback) (validator : option MessageValidator) (s : Sys) :
  sendChannel (this s) = None ->
  now - sent > 15000 ->
  exists s1,
    sendRequest sent key message res cb validator s =
      Thrown (Err "Gateway is not configured, make sure you have called configure") s1 /\
    In {| responder := res; http_status := 504;
          http_body := MessageUtilities.wrapInFailure ErrorCodes.SERVICE_TIMEOUT |}
       (http (world (terminateTimedOut now s1))) /\
    JsMap.get (msg_id message) (table (terminateTimedOut now s1)) = None /\
    ~ In (msg_id message) (identifiers (world (terminateTimedOut now s1))).
Proof.
  intros Hch Hold.
  pose (record := {| uid := msg_id message; response := res; callback := cb;
                     timestamp := sent; additionalValidator := validator |}).
  exists (on_this (with_outstandingRequests (JsMap.set (msg_id message) record)) s).
  split; [unfold sendRequest, publish; simpl; now rewrite Hch|].
  set (s1 := on_this _ s).
  assert (Hget : JsMap.get (msg_id message) (table s1) = Some record)
    by apply get_set_same.
  assert (Hex : expired now record = true) by (apply Spec.expired_gt; exact Hold).
  assert (Hin : In (msg_id message) (JsMap.keys (table s1))).
  { destruct (in_dec Z.eq_dec (msg_id message) (JsMap.keys (table s1))) as [H|H]; auto.
    apply get_None_keys in H. congruence. }
  rewrite terminateTimedOut_sweep. split; [|split].
  - exact (sweep_http_In now _ s1 (msg_id message) record Hget Hex Hin).
  - rewrite sweep_get, Hget, Hex. simpl.
    now rewrite (get_Some_keys _ record (table s1) Hget).
  - exact (sweep_released now _ s1 (msg_id message) record Hget Hex Hin).
Qed.

Lemma failed_dispatch_still_times_out_witness :
  exists s1,
    sendRequest 1000 "equipment.details.get" (read_message 7) res1 answer None created =
      Thrown (Err "Gateway is not configured, make sure you have called configure") s1 /\
    http (world (terminateTimedOut 17000 s1)) = [gateway_timeout record7].
Proof.
  destruct (failed_dispatch_still_times_out 1000 17000 "equipment.details.get"
              (read_message 7) res1 answer None created eq_refl eq_refl)
    as (s1 & Hthrown & _).
  exists s1. split; [exact Hthrown|].
  injection Hthrown as <-. reflexivity.
Defined.

(** ** A reply that the validator does not accept *)

(** X3. When the validator of a matched record answers false or throws,
    the request is left without any answer from the core, for good.  The
    handler writes nothing and releases nothing, and the record has left
    the table.  Whatever frames, runs of the terminator and dispatches
    under other ids follow: no callback is invoked for the id, no record
    is pending under it, and a run of the terminator then, at any clock
    reading, writes no 504 for it: every response it writes is the 504 of a
    record that is pending at that time, over the deadline, under another
    id. *)
Theorem rejected_reply_is_never_answered
  (s : Sys) (resolver : EntityResolver) (json : json) (id status : Z)
  (request : PendingRequest) (v : MessageValidator) :
  _resolver (this s) = Some resolver ->
  intercept resolver id = false ->
  numeric json "msg_id" = Some id ->
  numeric json "status" = Some status ->
  JsMap.get id (table s) = Some request ->
  GatewayMk2.additionalValidator request = Some v ->
  validate v json <> Resolved true ->
  let s' := state_of (handleRawIncoming (frame json) s) in
  world s' = world s /\
  JsMap.get id (table s') = None /\
  (forall later,
      forallb (fun i => negb (sends id i)) later = true ->
      let s2 := run later s' in
      fires id (trace s2) = fires id (trace s) /\
      JsMap.get id (table s2) = None /\
      forall now,
        exists written,
          http (world (terminateTimedOut now s2)) = http (world s2) ++ written /\
          Forall (fun write => exists id' r',
                      id' <> id /\ JsMap.get id' (table s2) = Some r' /\
                      now - timestamp r' > 15000 /\
                      write = gateway_timeout r') written).
Proof.
  intros Hr Hi Hid Hst Hget Hv Hno s'.
  assert (Hs' : table s' = JsMap.delete id (table s) /\ world s' = world s /\
                fires id (trace s') = fires id (trace s)).
  { unfold s'.
    rewrite (Spec.handleRawIncoming_reply s resolver json id status Hr Hid Hst).
    simpl. rewrite Hi, Hget, Hv. simpl. unfold settle.
    destruct (validate v json) as [[|]|err]; [congruence| |];
      simpl; (split; [reflexivity|]); (split; [reflexivity|]); no_fire. }
  destruct Hs' as (Ht & Hw & Hf). split; [exact Hw|].
  split; [rewrite Ht; apply get_delete_same|].
  intros later Hlater s2.
  destruct (run_potential id later s' Hlater) as (Hlo & Hhi). fold s2 in Hlo, Hhi.
  unfold pending in Hhi at 2. rewrite Ht, get_delete_same in Hhi.
  assert (Hgone : JsMap.get id (table s2) = None).
  { unfold pending in Hhi. destruct (JsMap.get id (table s2)); [lia | reflexivity]. }
  split; [unfold pending in Hhi; rewrite Hgone in Hhi; lia|].
  split; [exact Hgone|].
  intros now. rewrite terminateTimedOut_sweep.
  destruct (sweep_http now (JsMap.keys (table s2)) s2) as (ws & Hws & Hall).
  exists ws. split; [exact Hws|].
  eapply Forall_impl; [|exact Hall]. simpl.
  intros write (id' & r' & _ & Hg & Hexp & Hwr).
  exists id', r'. split.
  - intros ->. congruence.
  - split; [exact Hg|]. split; [now apply Spec.expired_gt | exact Hwr].
Qed.

(** Request 7 guarded by a validator that rejects: its reply changes
    nothing outside the gateway, and after a dispatch under the id 9 and
    the reply once more no callback has been invoked for the id 7. *)
Lemma rejected_reply_is_never_answered_witness :
  world (state_of (handleRawIncoming (frame (reply 7 0 [])) guarded7)) = world guarded7 /\
  fires 7 (trace (run [Send 2000 "equipment.details.get" (read_message 9) res2 answer None;
                       Frame (frame (reply 7 0 []))]
                    (state_of (handleRawIncoming (frame (reply 7 0 [])) guarded7)))) = 0%nat.
Proof.
  assert (Hno : validate rejecting (reply 7 0 []) <> Resolved true) by discriminate.
  destruct (rejected_reply_is_never_answered guarded7 resolver0 (reply 7 0 []) 7 0
              {| uid := 7; response := res1; callback := answer; timestamp := 1000;
                 additionalValidator := Some rejecting |}
              rejecting eq_refl eq_refl eq_refl eq_refl eq_refl eq_refl Hno)
    as (Hworld & _ & Hlater).
  split; [exact Hworld|].
  exact (proj1 (Hlater [Send 2000 "equipment.details.get" (read_message 9) res2 answer None;
                        Frame (frame (reply 7 0 []))] eq_refl)).
Defined.

(** ** The resolver comes first *)

(** X4. A reply whose id the resolver claims is routed to the resolver
    before the request table is consulted, even when a record is pending
    under the same id.  The handler returns; what it has done is the debug
    line and the hand-over of the reply to the resolver.  The table is as
    it was, so a record pending under the id is still pending, no callback
    of a pending record has been invoked, and the id has been released. *)
Theorem intercepted_reply_bypasses_table
  (s : Sys) (resolver : EntityResolver) (json : json) (id status : Z) :
  _resolver (this s) = Some resolver ->
  intercept resolver id = true ->
  numeric json "msg_id" = Some id ->
  numeric json "status" = Some status ->
  exists s',
    handleRawIncoming (frame json) s = Returned tt s' /\
    trace s' = trace s ++ [Log LDebug "incoming message" [id; status]; Handed json] /\
    table s' = table s /\
    (forall r, JsMap.get id (table s) = Some r -> JsMap.get id (table s') = Some r) /\
    (forall k, fires k (trace s') = fires k (trace s)) /\
    identifiers (world s') = remove Z.eq_dec id (identifiers (world s)).
Proof.
  intros Hr Hi Hid Hst.
  rewrite (Spec.handleRawIncoming_reply s resolver json id status Hr Hid Hst).
  simpl. rewrite Hi. eexists.
  split; [reflexivity|]. split; [simpl; now rewrite <- app_assoc|].
  split; [reflexivity|]. split; [auto|]. split; [no_fire | reflexivity].
Qed.

(** Request 9 is pending, and the resolver claims the id 9: the reply goes
    to the resolver and the record stays in the table, its callback not
    invoked. *)
Lemma intercepted_reply_bypasses_table_witness :
  JsMap.get 9 (table Reuse.pending9) = Some Reuse.record9 /\
  exists s',
    handleRawIncoming (frame (reply 9 0 [])) Reuse.pending9 = Returned tt s' /\
    JsMap.get 9 (table s') = Some Reuse.record9 /\
    fires 9 (trace s') = 0%nat.
Proof.
  split; [reflexivity|].
  destruct (intercepted_reply_bypasses_table Reuse.pending9 resolver0 (reply 9 0 []) 9 0
              eq_refl eq_refl eq_refl eq_refl)
    as (s' & Hrun & _ & _ & Hkept & Hfires & _).
  exists s'. split; [exact Hrun|]. split.
  - apply Hkept. reflexivity.
  - rewrite Hfires. reflexivity.
Defined.

(** ** The terminator, run again *)

Lemma sweep_nothing_expired (now : Z) (ks : list Z) :
  forall s : Sys,
    (forall k r, JsMap.get k (table s) = Some r -> expired now r = false) ->
    sweep now ks s = s.
Proof.
  induction ks as [|k ks IH]; intros s Hnone; simpl; auto.
  pose proof (terminate_entry_spec now k s) as H.
  destruct (JsMap.get k (table s)) as [e|] eqn:Ek.
  - rewrite (Hnone k e Ek) in H. rewrite H. now apply IH.
  - rewrite H. now apply IH.
Qed.

Lemma expired_later (now later : Z) (r : PendingRequest) :
  now <= later -> expired now r = true -> expired later r = true.
Proof. unfold expired. rewrite !Z.gtb_gt. lia. Qed.

(** X5. A second run of the terminator at the same clock reading changes
    nothing at all, and a run at a clock reading [later >= now] after a run
    at [now] leaves the same records pending as the run at [later]
    alone. *)
Theorem terminator_runs_compose (now later : Z) (s : Sys) :
  now <= later ->
  terminateTimedOut now (terminateTimedOut now s) = terminateTimedOut now s /\
  forall id,
    JsMap.get id (table (terminateTimedOut later (terminateTimedOut now s))) =
    JsMap.get id (table (terminateTimedOut later s)).
Proof.
  intros Hle. split.
  - rewrite (terminateTimedOut_sweep now (terminateTimedOut now s)).
    apply sweep_nothing_expired. intros k r Hget.
    rewrite terminateTimedOut_sweep, sweep_get in Hget.
    destruct (JsMap.get k (table s)) as [r0|] eqn:Ek; [|discriminate].
    rewrite (get_Some_keys k r0 (table s) Ek), andb_true_r in Hget.
    destruct (expired now r0) eqn:Ee; [discriminate|]. congruence.
  - intros id.
    rewrite (terminateTimedOut_sweep later (terminateTimedOut now s)), sweep_get.
    rewrite (terminateTimedOut_sweep later s), sweep_get.
    rewrite (terminateTimedOut_sweep now s), sweep_get.
    destruct (JsMap.get id (table s)) as [r|] eqn:Ek; auto.
    rewrite !(get_Some_keys id r (table s) Ek), !andb_true_r.
    destruct (expired now r) eqn:Ee.
    + now rewrite (expired_later now later r Hle Ee).
    + destruct (expired later r) eqn:El; simpl; auto.
      assert (Hin : existsb (Z.eqb id) (JsMap.keys (table (sweep now (JsMap.keys (table s)) s)))
                    = true).
      { apply (get_Some_keys id r). rewrite sweep_get, Ek, Ee. reflexivity. }
      now rewrite Hin.
Qed.

Lemma terminator_runs_compose_witness :
  terminateTimedOut 17000 (terminateTimedOut 17000 pending78) =
  terminateTimedOut 17000 pending78.
Proof.
  exact (proj1 (terminator_runs_compose 17000 17000 pending78 (Z.le_refl 17000))).
Defined.

(** X6. On a table whose keys are distinct (as they are in every state the
    gateway reaches) one run of the terminator is the sweep of the table:
    the records it takes out are those with [now - timestamp > 15000], the
    others stay in their order; it writes one 504 for each record taken
    out, in the order of the table, and nothing else; it releases the ids
    of these records and no other. *)
Theorem terminator_is_the_sweep (now : Z) (s : Sys) :
  NoDup (JsMap.keys (table s)) ->
  let gone := fst (RequestTable_sweep now 15000 (table s)) in
  table (terminateTimedOut now s) = snd (RequestTable_sweep now 15000 (table s)) /\
  http (world (terminateTimedOut now s)) = http (world s) ++ map gateway_timeout gone /\
  identifiers (world (terminateTimedOut now s)) = release_all gone (identifiers (world s)) /\
  (List.length gone + List.length (table (terminateTimedOut now s)) =
   List.length (table s))%nat.
Proof.
  intros Hnd gone.
  destruct (terminateTimedOut_refines_sweep now s Hnd) as (Ht & Hh & Hi).
  split; [exact Ht|]. split; [exact Hh|]. split; [exact Hi|].
  rewrite Ht. unfold gone, RequestTable_sweep. simpl.
  generalize (table s). intros m.
  induction m as [|[k r] m IH]; simpl; auto.
  destruct (now - timestamp r >? 15000); simpl; lia.
Qed.

Lemma terminator_is_the_sweep_witness :
  http (world (terminateTimedOut 30000 pending78)) =
  [gateway_timeout record7; gateway_timeout record8].
Proof.
  refine (proj1 (proj2 (terminator_is_the_sweep 30000 pending78 _))).
  simpl. repeat constructor; simpl; intuition discriminate.
Defined.

(** ** What a run leaves in the table, invokes and publishes *)

Lemma lines_are_harmless (s : Sys) (evs : list Event) :
  forallb is_line evs = true -> Forall (fired_from s) evs /\ published evs = [].
Proof.
  induction evs as [|ev evs IH]; simpl; intros H; [split; auto|].
  apply andb_true_iff in H as [Hev Hevs]. destruct (IH Hevs) as (Hf & Hp).
  destruct ev; simpl in *; try discriminate;
    (split; [constructor; [exact I | exact Hf] | exact Hp]).
Qed.

Lemma published_concat (a b : list Event) :
  published (a ++ b) = published a ++ published b.
Proof.
  induction a as [|ev a IH]; simpl; auto.
  destruct ev; simpl; auto. now rewrite IH.
Qed.

Lemma sweep_trace (now : Z) (ks : list Z) :
  forall s : Sys,
    exists evs, trace (sweep now ks s) = trace s ++ evs /\ forallb is_line evs = true.
Proof.
  induction ks as [|k ks IH]; intros s; simpl.
  - exists []. now rewrite app_nil_r.
  - destruct (IH (terminate_entry now k s)) as (evs & Hevs & Hl).
    pose proof (terminate_entry_spec now k s) as H.
    destruct (JsMap.get k (table s)) as [e|]; [destruct (expired now e)|].
    + destruct H as (_ & _ & _ & Htr). rewrite Htr, <- app_assoc in Hevs.
      eexists. split; [exact Hevs|]. simpl. exact Hl.
    + rewrite H in *. exists evs. split; assumption.
    + rewrite H in *. exists evs. split; assumption.
Qed.

Lemma sweep_this (now : Z) (ks : list Z) :
  forall s : Sys,
    sendChannel (this (sweep now ks s)) = sendChannel (this s).
Proof.
  induction ks as [|k ks IH]; intros s; simpl; auto.
  rewrite IH. unfold terminate_entry.
  destruct (JsMap.get k (table s)) as [e|]; auto.
  destruct (now - timestamp e >? 15000); auto.
Qed.

Lemma configure_trace (resolver : EntityResolver) (s : Sys) :
  (exists evs, trace (state_of (configure resolver s)) = trace s ++ evs /\
               forallb is_line evs = true) /\
  (sendChannel (this s) <> None ->
   sendChannel (this (state_of (configure resolver s))) <> None).
Proof.
  unfold configure, setup_failed.
  repeat (match goal with
          | |- context [match createChannel ?c with _ => _ end] =>
              destruct (createChannel c) as [[?|?] ?]
          | |- context [if negb ?b then _ else _] => destruct b
          end; cbn [negb]; cbv iota);
    simpl; (split; [|try discriminate; auto]);
    rewrite <- ?app_assoc; eexists; (split; [reflexivity|reflexivity]).
Qed.

Lemma handleRawIncoming_trace (m : option Message) (s : Sys) :
  (exists evs, trace (state_of (handleRawIncoming m s)) = trace s ++ evs /\
               Forall (fired_from s) evs /\ published evs = []) /\
  sendChannel (this (state_of (handleRawIncoming m s))) = sendChannel (this s).
Proof.
  unfold handleRawIncoming.
  destruct (_resolver (this s)) as [resolver|];
    [|split; [exists []; rewrite app_nil_r|]; auto].
  destruct m as [m|];
    [|split; [eexists; split; [reflexivity|]; split; [repeat constructor|]|]; reflexivity].
  destruct (JSON_parse (content m)) as [e|json];
    [split; [exists []; rewrite app_nil_r|]; auto|].
  destruct (numeric json "msg_id") as [id|] eqn:Eid;
    [|split; [eexists; split; [reflexivity|]; split; [repeat constructor|]|]; reflexivity].
  destruct (numeric json "status") as [status|] eqn:Est;
    [|split; [eexists; split; [reflexivity|]; split; [repeat constructor|]|]; reflexivity].
  destruct (intercept resolver id).
  { split; [|reflexivity]. simpl. rewrite <- app_assoc. eexists.
    split; [reflexivity|]. split; [repeat constructor | reflexivity]. }
  change (table (log (Log LDebug "incoming message" [id; status]) s)) with (table s).
  destruct (JsMap.get id (table s)) as [req|] eqn:Eg.
  2:{ split; [|reflexivity]. simpl. rewrite <- app_assoc. eexists.
      split; [reflexivity|]. split; [repeat constructor | reflexivity]. }
  assert (Hfired : fired_from s (Fired req json status)).
  { simpl. exists id. auto. }
  destruct (GatewayMk2.additionalValidator req) as [v|].
  - unfold settle. destruct (validate v json) as [[|]|err]; simpl;
      (split; [|reflexivity]); rewrite <- app_assoc; eexists;
      (split; [reflexivity|]); (split; [repeat constructor; auto | reflexivity]).
  - simpl. split; [|reflexivity]. rewrite <- app_assoc. eexists.
    split; [reflexivity|]. split; [repeat constructor; auto | reflexivity].
Qed.

Lemma sendRequest_trace
  (now : Z) (key : string) (message : RequestMessage) (res : Response)
  (cb : RequestCallback) (validator : option MessageValidator) (s : Sys) :
  exists evs,
    trace (state_of (sendRequest now key message res cb validator s)) = trace s ++ evs /\
    Forall (fired_from s) evs /\
    published evs = match sendChannel (this s) with
                    | Some _ => [(key, message)]
                    | None => []
                    end.
Proof.
  unfold sendRequest, publish. simpl.
  destruct (sendChannel (this s)); simpl.
  - destruct (obj_get "userID" (properties message)); simpl;
      rewrite <- ?app_assoc; eexists; (split; [reflexivity|]);
      (split; [repeat constructor | reflexivity]).
  - exists []. rewrite app_nil_r. auto.
Qed.

(** One turn appends events to the log; the callbacks it invokes are those
    of records of the table it started from, on replies carrying their
    ids; it publishes the message of a dispatch, when a channel is set,
    and nothing else; it does not unset the channel. *)
Lemma step_trace (i : Input) (s : Sys) :
  (exists evs,
      trace (step i s) = trace s ++ evs /\
      Forall (fired_from s) evs /\
      published evs = match sendChannel (this s) with
                      | Some _ => dispatched [i]
                      | None => []
                      end) /\
  (sendChannel (this s) <> None -> sendChannel (this (step i s)) <> None).
Proof.
  destruct i as [resolver|m|now|now key message res cb v]; simpl.
  - destruct (configure_trace resolver s) as ((evs & Hevs & Hl) & Hch).
    split; [|exact Hch]. exists evs. split; [exact Hevs|].
    destruct (lines_are_harmless s evs Hl) as (Hf & Hp).
    split; [exact Hf|]. rewrite Hp. now destruct (sendChannel (this s)).
  - destruct (handleRawIncoming_trace m s) as ((evs & Hevs & Hf & Hp) & Hch).
    split; [|now rewrite Hch]. exists evs. split; [exact Hevs|]. split; [exact Hf|].
    rewrite Hp. now destruct (sendChannel (this s)).
  - unfold fire. destruct (handler (terminatorInterval (this s))).
    rewrite terminateTimedOut_sweep.
    destruct (sweep_trace now (JsMap.keys (table s)) s) as (evs & Hevs & Hl).
    split; [|now rewrite sweep_this]. exists evs. split; [exact Hevs|].
    destruct (lines_are_harmless s evs Hl) as (Hf & Hp).
    split; [exact Hf|]. rewrite Hp. now destruct (sendChannel (this s)).
  - destruct (sendRequest_trace now key message res cb v s) as (evs & Hevs & Hf & Hp).
    split.
    + exists evs. split; [exact Hevs|]. split; [exact Hf|]. exact Hp.
    + destruct (sendRequest_state now key message res cb v s) as (_ & _ & _ & Hch & _).
      now rewrite Hch.
Qed.

(** The record found under a key after a turn was there before, or is the
    one the turn dispatched. *)
Lemma step_table (i : Input) (s : Sys) (k : Z) (r : PendingRequest) :
  JsMap.get k (table (step i s)) = Some r ->
  JsMap.get k (table s) = Some r \/ dispatched_record i = Some (k, r).
Proof.
  destruct i as [resolver|m|now|now key message res cb v]; simpl; intros Hget.
  - left. now rewrite (proj1 (configure_table resolver s)) in Hget.
  - left. destruct (handleRawIncoming_cases m s) as [(Ht & _)|(id' & req & _ & Ht & _)];
      rewrite Ht in Hget; auto.
    rewrite get_delete in Hget. now destruct (k =? id').
  - left. unfold fire in Hget. destruct (handler (terminatorInterval (this s))).
    rewrite terminateTimedOut_sweep, sweep_get in Hget.
    destruct (JsMap.get k (table s)) as [r0|]; [|discriminate].
    now destruct (expired now r0 && existsb (Z.eqb k) (JsMap.keys (table s))).
  - destruct (sendRequest_state now key message res cb v s) as (Ht & _).
    rewrite Ht, get_set in Hget.
    destruct (Z.eqb_spec k (msg_id message)) as [->|_]; [right|left; auto].
    congruence.
Qed.

Lemma run_table (inputs : list Input) :
  forall (s : Sys) (k : Z) (r : PendingRequest),
    JsMap.get k (table (run inputs s)) = Some r ->
    JsMap.get k (table s) = Some r \/
    exists i, In i inputs /\ dispatched_record i = Some (k, r).
Proof.
  induction inputs as [|i inputs IH]; intros s k r Hget; simpl in *; auto.
  destruct (IH (step i s) k r Hget) as [Hs|(i' & Hin & Hd)].
  - destruct (step_table i s k r Hs) as [H|H]; eauto.
  - eauto.
Qed.

Lemma dispatched_record_uid (i : Input) (k : Z) (r : PendingRequest) :
  dispatched_record i = Some (k, r) -> uid r = k.
Proof. destruct i; simpl; intros H; try discriminate. now injection H as <- <-. Qed.

(** X7. Whatever the run from a gateway just constructed, a record found
    in the table under a key is the record of a dispatch of that run: it
    carries the response, callback, clock reading and validator given to
    that [sendRequest], and its [uid] is the key, so the id that the
    terminator releases for it is the id it was dispatched under.  Frames,
    runs of the terminator and [configure] never add or alter a record. *)
Theorem pending_records_are_dispatches
  (inputs : list Input) (conn : Connection_) (validator : option MessageValidator)
  (w : World) (k : Z) (r : PendingRequest) :
  JsMap.get k (table (run inputs (constructor conn validator w))) = Some r ->
  uid r = k /\
  exists i, In i inputs /\ dispatched_record i = Some (k, r).
Proof.
  intros Hget.
  destruct (run_table inputs _ k r Hget) as [Hempty|(i & Hin & Hd)];
    [discriminate Hempty|].
  split; [exact (dispatched_record_uid i k r Hd)|]. eauto.
Qed.

(** Request 8 is pending after requests 7 and 8 were dispatched and request
    7 was answered. *)
Lemma pending_records_are_dispatches_witness :
  exists i,
    In i [Configure resolver0;
          Send 1000 "equipment.details.get" (read_message 7) res1 answer None;
          Send 10000 "equipment.details.get" (read_message 8) res2 answer None;
          Frame (frame (reply 7 0 []))] /\
    dispatched_record i = Some (8, record8).
Proof.
  exact (proj2 (pending_records_are_dispatches
                  [Configure resolver0;
                   Send 1000 "equipment.details.get" (read_message 7) res1 answer None;
                   Send 10000 "equipment.details.get" (read_message 8) res2 answer None;
                   Frame (frame (reply 7 0 []))]
                  connection0 None {| identifiers := [7; 8]; http := [] |}
                  8 record8 eq_refl)).
Defined.

Lemma run_fired (inputs : list Input) :
  forall (s : Sys) (r : PendingRequest) (reply : json) (status : Z),
    In (Fired r reply status) (trace (run inputs s)) ->
    In (Fired r reply status) (trace s) \/
    exists k,
      numeric reply "msg_id" = Some k /\ numeric reply "status" = Some status /\
      (JsMap.get k (table s) = Some r \/
       exists i, In i inputs /\ dispatched_record i = Some (k, r)).
Proof.
  induction inputs as [|i inputs IH]; intros s r reply status Hin; simpl in *; auto.
  destruct (IH (step i s) r reply status Hin) as [Hs|(k & Hid & Hst & Hsrc)].
  - destruct (step_trace i s) as ((evs & Hevs & Hf & _) & _).
    rewrite Hevs in Hs. apply in_app_or in Hs as [Hs|Hs]; auto.
    right. rewrite Forall_forall in Hf. destruct (Hf _ Hs) as (k & Hg & Hid & Hst).
    exists k. auto.
  - right. exists k. split; [exact Hid|]. split; [exact Hst|].
    destruct Hsrc as [Hg|(i' & Hi' & Hd)]; [|eauto].
    destruct (step_table i s k r Hg) as [H|H]; eauto.
Qed.

(** X8. Along any run from a gateway just constructed, the core invokes a
    completion callback only for a request that was dispatched in that
    run, with the response and the clock reading of that dispatch, on a
    reply that carries the id of the request, and with the status of that
    reply. *)
Theorem callbacks_only_for_dispatches
  (inputs : list Input) (conn : Connection_) (validator : option MessageValidator)
  (w : World) (r : PendingRequest) (reply : json) (status : Z) :
  In (Fired r reply status) (trace (run inputs (constructor conn validator w))) ->
  numeric reply "msg_id" = Some (uid r) /\
  numeric reply "status" = Some status /\
  exists i, In i inputs /\ dispatched_record i = Some (uid r, r).
Proof.
  intros Hin.
  destruct (run_fired inputs _ r reply status Hin)
    as [[Habs|[]]|(k & Hid & Hst & [Habs|(i & Hi & Hd)])];
    try discriminate.
  rewrite (dispatched_record_uid i k r Hd). eauto.
Qed.

(** The callback of request 7, invoked on its reply. *)
Lemma callbacks_only_for_dispatches_witness :
  numeric (reply 7 0 []) "msg_id" = Some (uid record7) /\
  numeric (reply 7 0 []) "status" = Some 0 /\
  exists i,
    In i [Configure resolver0;
          Send 1000 "equipment.details.get" (read_message 7) res1 answer None;
          Frame (frame (reply 7 0 []))] /\
    dispatched_record i = Some (uid record7, record7).
Proof.
  refine (callbacks_only_for_dispatches
            [Configure resolver0;
             Send 1000 "equipment.details.get" (read_message 7) res1 answer None;
             Frame (frame (reply 7 0 []))]
            connection0 None {| identifiers := [7; 8]; http := [] |}
            record7 (reply 7 0 []) 0 _).
  simpl. right. right. right. right. right. right. right. right. right. right. right.
  left. reflexivity.
Defined.

Lemma run_published (inputs : list Input) :
  forall s : Sys,
    sendChannel (this s) <> None ->
    published (trace (run inputs s)) = published (trace s) ++ dispatched inputs.
Proof.
  induction inputs as [|i inputs IH]; intros s Hch; simpl.
  - now rewrite app_nil_r.
  - destruct (step_trace i s) as ((evs & Hevs & _ & Hp) & Hkeep).
    fold (run inputs (step i s)). rewrite (IH (step i s) (Hkeep Hch)).
    rewrite Hevs, published_concat, Hp, <- app_assoc.
    destruct (sendChannel (this s)); [|congruence].
    destruct i; reflexivity.
Qed.

(** X9. Once a send channel is set, along a run of dispatches, runs of
    the terminator and calls of [configure], what the gateway hands to the
    broker is exactly the messages dispatched, each once, in the order of
    the dispatches, under the routing keys given, on the exchange
    [request]: the terminator and [configure] publish nothing, and no turn
    unsets the channel.  Deliveries of the inbox are left out of the run:
    the completion callback and the resolver they reach are code of the
    caller, which may publish through [publish] itself. *)
Theorem broker_receives_the_dispatches (inputs : list Input) (s : Sys) :
  sendChannel (this s) <> None ->
  forallb Reuse.no_frame inputs = true ->
  published (trace (run inputs s)) = published (trace s) ++ dispatched inputs /\
  sendChannel (this (run inputs s)) <> None /\
  forall exchange key data,
    In (Published exchange key data) (trace (run inputs s)) ->
    In (Published exchange key data) (trace s) \/ exchange = REQUEST_EXCHANGE.
Proof.
  intros Hch _. split; [now apply run_published|].
  revert s Hch. induction inputs as [|i inputs IH]; intros s Hch; simpl; [auto|].
  destruct (step_trace i s) as ((evs & Hevs & _ & _) & Hkeep).
  destruct (IH (step i s) (Hkeep Hch)) as (Hch' & Hex). split; [exact Hch'|].
  intros exchange key data Hin. destruct (Hex exchange key data Hin) as [Hs|Hs]; auto.
  rewrite Hevs in Hs. apply in_app_or in Hs as [Hs|Hs]; auto.
  right. clear - Hs Hevs.
  destruct i as [resolver|m|now|now k message res cb v]; simpl in Hevs.
  - destruct (configure_trace resolver s) as ((evs' & Hevs' & Hl) & _).
    rewrite Hevs' in Hevs. apply app_inv_head in Hevs. subst evs'.
    rewrite forallb_forall in Hl. now apply Hl in Hs.
  - destruct (handleRawIncoming_trace m s) as ((evs' & Hevs' & _ & Hp) & _).
    rewrite Hevs' in Hevs. apply app_inv_head in Hevs. subst evs'.
    apply in_split in Hs as (a & b & ->).
    rewrite published_concat in Hp. simpl in Hp.
    now apply app_eq_nil in Hp as [_ Hp].
  - unfold fire in Hevs. destruct (handler (terminatorInterval (this s))).
    rewrite terminateTimedOut_sweep in Hevs.
    destruct (sweep_trace now (JsMap.keys (table s)) s) as (evs' & Hevs' & Hl).
    rewrite Hevs' in Hevs. apply app_inv_head in Hevs. subst evs'.
    rewrite forallb_forall in Hl. now apply Hl in Hs.
  - unfold sendRequest, publish in Hevs. simpl in Hevs.
    destruct (sendChannel (this s)); simpl in Hevs.
    + destruct (obj_get "userID" (properties message)); simpl in Hevs;
        rewrite <- ?app_assoc in Hevs; apply app_inv_head in Hevs; subst evs;
        simpl in Hs; intuition congruence.
    + rewrite <- (app_nil_r (trace s)) in Hevs at 1.
      apply app_inv_head in Hevs. subst evs. destruct Hs.
Qed.

Lemma broker_receives_the_dispatches_witness :
  published (trace (run [Send 1000 "equipment.details.get" (read_message 7) res1 answer None;
                         Tick 17000;
                         Configure resolver0;
                         Send 10000 "equipment.details.delete" (read_message 8) res2 answer
                           None]
                      configured)) =
  [("equipment.details.get", read_message 7); ("equipment.details.delete", read_message 8)].
Proof.
  refine (proj1 (broker_receives_the_dispatches
                   [Send 1000 "equipment.details.get" (read_message 7) res1 answer None;
                    Tick 17000;
                    Configure resolver0;
                    Send 10000 "equipment.details.delete" (read_message 8) res2 answer None]
                   configured _ eq_refl)).
  discriminate.
Defined.

(** ** [configure] *)

(** X10. [configure] returns exactly when the connection gives two
    channels and the five set-up calls on them resolve; the first channel
    is then the send channel and the second the receive channel.  Whether
    it returns or throws, the resolver it was given is set from then on,
    and it neither touches the request table or the world nor publishes
    anything; when it throws, the last line of the log is an error. *)
Theorem configure_outcomes (resolver : EntityResolver) (s : Sys) :
  ((exists s', configure resolver s = Returned tt s') <->
   (exists send receive rest,
       channels (connection (this s)) = Some send :: Some receive :: rest /\
       assertExchange send REQUEST_EXCHANGE = true /\
       assertExchange receive GATEWAY_EXCHANGE = true /\
       assertQueue receive RCV_INBOX_QUEUE_NAME = true /\
       bindQueue receive RCV_INBOX_QUEUE_NAME GATEWAY_EXCHANGE = true /\
       consume receive RCV_INBOX_QUEUE_NAME = true)) /\
  (forall s',
      configure resolver s = Returned tt s' ->
      exists send receive rest,
        channels (connection (this s)) = Some send :: Some receive :: rest /\
        sendChannel (this s') = Some send /\
        receiveChannel (this s') = Some receive /\
        channels (connection (this s')) = rest) /\
  (forall e s',
      configure resolver s = Thrown e s' ->
      exists text before, trace s' = before ++ [Log LError text []]) /\
  _resolver (this (state_of (configure resolver s))) = Some resolver /\
  table (state_of (configure resolver s)) = table s /\
  world (state_of (configure resolver s)) = world s /\
  published (trace (state_of (configure resolver s))) = published (trace s).
Proof.
  assert (Hpub : published (trace (state_of (configure resolver s))) = published (trace s)).
  { destruct (configure_trace resolver s) as ((evs & Hevs & Hl) & _).
    rewrite Hevs, published_concat, (proj2 (lines_are_harmless s evs Hl)).
    apply app_nil_r. }
  revert Hpub. unfold configure, setup_failed, createChannel. simpl.
  destruct (channels (connection (this s))) as [|[send|] [|[receive|] rest]]; simpl;
    repeat match goal with
           | |- context [if negb (?f ?c ?a) then _ else _] =>
               destruct (f c a) eqn:?; cbn [negb]; cbv iota
           | |- context [if negb (?f ?c ?a ?b) then _ else _] =>
               destruct (f c a b) eqn:?; cbn [negb]; cbv iota
           end;
    simpl; intros Hpub;
    (split; [split;
             [intros (s' & H); try discriminate H; eauto 10
             |intros (send' & receive' & rest' & Hc & H1 & H2 & H3 & H4 & H5);
              try discriminate Hc; try (injection Hc as <- <- <-); try congruence; eauto]
            |]);
    (split; [intros s' H; try discriminate H; injection H as <-; simpl; eauto 10|]);
    (split; [intros e s' H; try discriminate H; injection H as <- <-; simpl; eauto|]);
    auto.
Qed.

(** ** The messages of the handlers *)

Lemma obj_get_set (key k : string) (v : json) (o : obj) :
  obj_get key (obj_set k v o) = if String.eqb key k then Some v else obj_get key o.
Proof.
  induction o as [|[k' w] o IH]; simpl; [reflexivity|].
  destruct (String.eqb k k') eqn:E; simpl.
  - apply String.eqb_eq in E. subst k'. now destruct (String.eqb key k).
  - rewrite IH. destruct (String.eqb key k') eqn:E'; auto.
    destruct (String.eqb key k) eqn:E''; auto.
    apply String.eqb_eq in E', E''. subst. rewrite String.eqb_refl in E. discriminate.
Qed.

Lemma obj_get_assign (key k : string) (v : option json) (m : RequestMessage) :
  obj_get key (properties (assign k v m)) =
  if String.eqb key k
  then match v with Some x => Some x | None => obj_get key (properties m) end
  else obj_get key (properties m).
Proof.
  destruct v as [x|]; simpl.
  - apply obj_get_set.
  - now destruct (String.eqb key k).
Qed.


Lemma object_literal_get (id : Z) (entries : list (string * option json)) (key : string) :
  obj_get key (properties (object_literal id entries)) =
  fold_left
    (fun found entry =>
       if String.eqb key (fst entry)
       then match snd entry with Some x => Some x | None => found end
       else found)
    entries None.
Proof.
  unfold object_literal.
  change (@None json) with (obj_get key (properties {| msg_id := id; properties := [] |})).
  generalize {| msg_id := id; properties := [] |}.
  induction entries as [|[k v] entries IH]; intros m; simpl; [reflexivity|].
  now rewrite IH, obj_get_assign.
Qed.

Lemma copy_present_get (keys : list string) (source : obj) :
  forall (m : RequestMessage) (key : string),
    obj_get key (properties (copy_present keys source m)) =
    if existsb (String.eqb key) keys
    then match obj_get key source with
         | Some v => Some v
         | None => obj_get key (properties m)
         end
    else obj_get key (properties m).
Proof.
  unfold copy_present, MessageUtilities.has, member.
  induction keys as [|k keys IH]; intros m key; simpl; [reflexivity|].
  rewrite IH. destruct (String.eqb_spec key k) as [->|Hne]; simpl.
  - destruct (obj_get k source) as [v|] eqn:Ek.
    + rewrite obj_get_assign, String.eqb_refl.
      now destruct (existsb (String.eqb k) keys).
    + now destruct (existsb (String.eqb k) keys).
  - destruct (obj_get k source) as [v|] eqn:Ek; auto.
    rewrite obj_get_assign. apply String.eqb_neq in Hne. now rewrite Hne.
Qed.

Lemma copy_truthy_get (keys : list string) (source : obj) :
  forall (m : RequestMessage) (key : string),
    obj_get key (properties (copy_truthy keys source m)) =
    if existsb (String.eqb key) keys && truthy (obj_get key source)
    then obj_get key source
    else obj_get key (properties m).
Proof.
  unfold copy_truthy.
  induction keys as [|k keys IH]; intros m key; simpl; [reflexivity|].
  rewrite IH. destruct (String.eqb_spec key k) as [->|Hne]; simpl.
  - destruct (truthy (obj_get k source)) eqn:Et.
    + rewrite andb_true_r, obj_get_assign, String.eqb_refl.
      destruct (obj_get k source) eqn:Ek; [|discriminate Et].
      now destruct (existsb (String.eqb k) keys).
    + now rewrite andb_false_r.
  - destruct (truthy (obj_get k source)); auto.
    rewrite obj_get_assign. apply String.eqb_neq in Hne. now rewrite Hne.
Qed.





(** What a handler has published once its [send] has been awaited. *)
Lemma awaited_send
  (now : Z) (validator : option MessageValidator) (key : string)
  (message : RequestMessage) (res : Response) (cb : RequestCallback) (s : Sys) :
  published (trace (state_of (await (bind_send now validator key message res cb s)))) =
  published (trace s) ++ match sendChannel (this s) with
                         | Some _ => [(key, message)]
                         | None => []
                         end /\
  world (state_of (await (bind_send now validator key message res cb s))) = world s.
Proof.
  unfold bind_send.
  assert (Hs : state_of (await (sendRequest now key message res cb validator s)) =
               state_of (sendRequest now key message res cb validator s)).
  { now destruct (sendRequest now key message res cb validator s). }
  rewrite Hs.
  destruct (sendRequest_trace now key message res cb validator s) as (evs & Hevs & _ & Hp).
  destruct (sendRequest_state now key message res cb validator s) as (_ & Hw & _).
  rewrite Hevs, published_concat, Hp. auto.
Qed.

#[local] Arguments copy_truthy : simpl never.
#[local] Arguments copy_present : simpl never.

Section Handlers.

Variable Transformer : Type.
Variable handleDefaultResponseFactory : option Transformer -> RequestCallback.
Variable handleReadSingleResponseFactory : option Transformer -> RequestCallback.
Variable resolveEquipments : option EntityResolver -> string -> Transformer.
Variable resolveSingleEquipment : option EntityResolver -> string -> Transformer.
Variable EquipmentResponseValidator : MessageValidator.
Variable UserResponseValidator : MessageValidator.
Variable verifyBody :
  Request -> Response -> list string -> list (string * (json -> bool)) ->
  World -> bool * World.
Variable coerceAndVerifyQuery :
  Request -> Response -> list string -> list (string * Primitive) ->
  World -> bool * Request * World.









Local Abbreviation equipment_routes send resolver :=
  (EquipmentGatewayInterface_generateInterfaces Transformer handleDefaultResponseFactory
     handleReadSingleResponseFactory resolveEquipments resolveSingleEquipment
     EquipmentResponseValidator verifyBody coerceAndVerifyQuery send resolver).

Local Abbreviation user_routes send :=
  (UserGatewayInterface_generateInterfaces Transformer handleDefaultResponseFactory
     handleReadSingleResponseFactory UserResponseValidator verifyBody coerceAndVerifyQuery
     send).

Ltac open_route :=
  unfold queryEquipmentsHandler, createEquipmentHandler, updateEquipmentHandler,
    queryUsersHandler, createUserHandler, updateUserHandler,
    getEquipmentHandler, deleteEquipmentHandler, getUserHandler, deleteUserHandler,
    generateMessageIdentifier, MessageUtilities.generateMessageIdentifier,
    MessageUtilities.has, member, missing_parameter_id;
  cbn [ActionType.handle ActionType.action ActionType.path].


(** X17. A request without the id of the path, to any of the six routes
    by id: the handler answers 400 with the code BAD_REQUEST_MISSING_PARAM
    and returns; nothing is published or logged and the gateway is as
    before.  No identifier has been allocated, except by
    [GET /equipment/:id], which allocates one before it looks at the path
    and leaves it allocated. *)
Theorem routes_by_id_require_the_id
  (now : Z) (validator : option MessageValidator) (resolver : EntityResolver)
  (a : ActionType.t) (req : Request) (res : Response) (s : Sys) :
  In a (equipment_routes (bind_send now validator) resolver ++
        user_routes (bind_send now validator)) ->
  ActionType.path a = "/equipment/:id" \/ ActionType.path a = "/user/:id" ->
  obj_get "id" (params req) = None ->
  exists s',
    ActionType.handle a req res s = Returned tt s' /\
    trace s' = trace s /\
    this s' = this s /\
    http (world s') = http (world s) ++ [bad_request_missing_id res] /\
    identifiers (world s') =
      match ActionType.action a with
      | GET =>
          if String.eqb (ActionType.path a) "/equipment/:id"
          then MessageUtilities.fresh (identifiers (world s)) :: identifiers (world s)
          else identifiers (world s)
      | _ => identifiers (world s)
      end.
Proof.
  intros Hin Hpath Hid. simpl in Hin.
  repeat (destruct Hin as [<-|Hin]);
    try (destruct Hin);
    try (simpl in Hpath; destruct Hpath as [Hk|Hk]; discriminate Hk);
    open_route; simpl; rewrite Hid; simpl;
    eexists; repeat split.
Qed.

(** X18. The method of a route decides what it sends: whatever the
    request, a handler of the route table of an entity publishes nothing
    or one message; the message goes to [<entity>.details.<verb>] for the
    verb of the method of the route (get, create, update, delete) and
    carries the intention of that method, status 0 and the user of the
    request, none of which the query or the body of the request can
    change. *)
Theorem routes_send_by_method
  (now : Z) (validator : option MessageValidator) (resolver : EntityResolver) :
  let shape (entity : string) (a : ActionType.t) :=
    forall (req : Request) (res : Response) (s : Sys),
      published (trace (state_of (ActionType.handle a req res s))) = published (trace s) \/
      exists m,
        published (trace (state_of (ActionType.handle a req res s))) =
          published (trace s) ++
          [(String.append entity (String.append ".details." (verb (ActionType.action a))), m)] /\
        obj_get "msg_intention" (properties m) =
          Some (JStr (intention (ActionType.action a))) /\
        obj_get "status" (properties m) = Some (JNum 0) /\
        obj_get "userID" (properties m) = Some (JStr (userID (uemsUser req))) in
  (forall a, In a (equipment_routes (bind_send now validator) resolver) ->
             shape "equipment" a) /\
  (forall a, In a (user_routes (bind_send now validator)) -> shape "user" a).
Proof.
  intros shape. subst shape.
  split; intros a Hin req res s; simpl in Hin;
    repeat (destruct Hin as [<-|Hin]); try (destruct Hin);
    open_route; simpl;
    repeat match goal with
           | |- context [verifyBody req res ?r ?t ?w] =>
               destruct (verifyBody req res r t w) as [[|] ?]; simpl
           | |- context [coerceAndVerifyQuery req res ?r ?t ?w] =>
               destruct (coerceAndVerifyQuery req res r t w) as [[[|] ?] ?]; simpl
           | |- context [match obj_get "id" (params req) with _ => _ end] =>
               destruct (obj_get "id" (params req)); simpl
           end;
    try (left; reflexivity);
    match goal with
    | |- context [await (bind_send now validator ?k ?m ?r ?c ?st)] =>
        rewrite (proj1 (awaited_send now validator k m r c st))
    end;
    simpl; (destruct (sendChannel (this s)); [right|left; apply app_nil_r]);
    eexists; (split; [reflexivity|]);
    repeat split;
    repeat match goal with
           | |- context [if truthy ?v then _ else _] => destruct (truthy v)
           end;
    rewrite ?copy_truthy_get, ?copy_present_get, ?obj_get_assign, ?object_literal_get;
    reflexivity.
Qed.

End Handlers.

(** ** The handlers at concrete requests *)

(** The configured gateway receives a set-up that succeeded. *)
Lemma configure_outcomes_witness :
  exists s', configure resolver0 created = Returned tt s' /\
             sendChannel (this s') = Some channel0.
Proof.
  destruct (configure_outcomes resolver0 created) as (Hiff & Hfields & _).
  destruct (proj2 Hiff) as (s' & Hrun).
  { exists channel0, channel0, []. repeat split. }
  exists s'. split; [exact Hrun|].
  destruct (Hfields s' Hrun) as (send & receive & rest & Hc & Hs & _).
  rewrite Hs. now injection Hc as <- _ _.
Defined.







(** [GET /equipment/] without id: 400, and the identifier 9 stays
    allocated. *)
Lemma routes_by_id_require_the_id_witness :
  exists s',
    getEquipmentHandler unit (fun _ => answer) (fun _ _ => tt) (Some resolver0)
      (bind_send 1000 None) no_id res1 configured = Returned tt s' /\
    http (world s') = [bad_request_missing_id res1] /\
    identifiers (world s') = [9; 7; 8].
Proof.
  destruct (routes_by_id_require_the_id unit (fun _ => answer) (fun _ => answer)
              (fun _ _ => tt) (fun _ _ => tt) accepting accepting verify_pass coerce_pass
              1000 None resolver0
              {| ActionType.action := GET;
                 ActionType.path := "/equipment/:id";
                 ActionType.handle :=
                   getEquipmentHandler unit (fun _ => answer) (fun _ _ => tt)
                     (Some resolver0) (bind_send 1000 None);
                 ActionType.additionalValidator := Some accepting;
                 ActionType.secure := None |}
              no_id res1 configured)
    as (s' & Hrun & _ & _ & Hhttp & Hids).
  - simpl. tauto.
  - left. reflexivity.
  - reflexivity.
  - exists s'. split; [exact Hrun|]. split; [exact Hhttp | exact Hids].
Defined.

(** [DELETE /user/abc] on the configured gateway: one message, to
    [user.details.delete]. *)
Lemma routes_send_by_method_witness :
  exists m,
    published
      (trace (state_of (deleteUserHandler unit (fun _ => answer) (bind_send 1000 None)
                          get_abc res1 configured))) = [("user.details.delete", m)] /\
    obj_get "msg_intention" (properties m) = Some (JStr "DELETE") /\
    obj_get "status" (properties m) = Some (JNum 0) /\
    obj_get "userID" (properties m) = Some (JStr "u1").
Proof.
  destruct (proj2 (routes_send_by_method unit (fun _ => answer) (fun _ => answer)
                     (fun _ _ => tt) (fun _ _ => tt) accepting accepting verify_pass
                     coerce_pass 1000 None resolver0)
              {| ActionType.action := DELETE;
                 ActionType.path := "/user/:id";
                 ActionType.handle :=
                   deleteUserHandler unit (fun _ => answer) (bind_send 1000 None);
                 ActionType.additionalValidator := Some accepting;
                 ActionType.secure := None |}
              (or_intror (or_intror (or_introl eq_refl))) get_abc res1 configured)
    as [Hnone|Hone].
  - discriminate Hnone.
  - exact Hone.
Defined.

End Extra.
